(** * docker_snapshot.py: the reconstruction engine, embedded and verified

    A shallow embedding of [src/docker_snapshot.py].  A Python [str] is a
    [string], the sequence of its UTF-8 bytes (whitespace is Unicode
    whitespace; letter case and [isalnum] are modelled on ASCII strings,
    and the properties that depend on them are stated for such strings); a
    Python [int] is a
    [Z]; an insertion-ordered [dict] is an association list in insertion
    order; a value that may be [None] or missing is an [option]; a raised
    exception is a constructor of an outcome type. *)

From Stdlib Require Import String Ascii List ZArith Lia Bool DecimalString.
Import ListNotations.
Local Open Scope list_scope.
Local Open Scope string_scope.

(** ** Python string primitives used by the program *)

Module Py.

(** [s.startswith(p)] *)
Definition startswith (p s : string) : bool := String.prefix p s.

(** ["=" in s] *)
Fixpoint contains_eq (s : string) : bool :=
  match s with
  | EmptyString => false
  | String c s' => if Ascii.eqb c "=" then true else contains_eq s'
  end.

(** [s.split("=", 1)] for an [s] that contains ["="]: the text before the
    first ["="] and the text after it. *)
Fixpoint split_eq (s : string) : string * string :=
  match s with
  | EmptyString => (EmptyString, EmptyString)
  | String c s' =>
      if Ascii.eqb c "=" then (EmptyString, s')
      else let (k, v) := split_eq s' in (String c k, v)
  end.

(** The length in bytes of the whitespace character [s] starts with, and 0
    when it starts with none.  The whitespace characters are those of
    [str.isspace], which [str.strip] removes: U+0009 to U+000D, U+001C to
    U+001F, U+0020, U+0085, U+00A0, U+1680, U+2000 to U+200A, U+2028, U+2029,
    U+202F, U+205F and U+3000, here in their UTF-8 encoding. *)
Definition space_len (s : string) : nat :=
  match s with
  | EmptyString => 0
  | String c1 s1 =>
      let n1 := nat_of_ascii c1 in
      if (((9 <=? n1) && (n1 <=? 13)) || ((28 <=? n1) && (n1 <=? 32)))%nat then 1
      else
        match s1 with
        | EmptyString => 0
        | String c2 s2 =>
            let n2 := nat_of_ascii c2 in
            if (n1 =? 194)%nat
            then (if ((n2 =? 133) || (n2 =? 160))%nat then 2 else 0)
            else
              match s2 with
              | EmptyString => 0
              | String c3 _ =>
                  let n3 := nat_of_ascii c3 in
                  if (((n1 =? 225) && (n2 =? 154) && (n3 =? 128))
                      || ((n1 =? 226) && (n2 =? 128)
                          && (((128 <=? n3) && (n3 <=? 138))
                              || (n3 =? 168) || (n3 =? 169) || (n3 =? 175)))
                      || ((n1 =? 226) && (n2 =? 129) && (n3 =? 159))
                      || ((n1 =? 227) && (n2 =? 128) && (n3 =? 128)))%nat
                  then 3 else 0
              end
        end
  end.

(** [s.lstrip()]: whitespace characters are removed from the left, one at
    a time; [skip] counts the bytes of a whitespace character that are still
    to be removed. *)
Fixpoint lstrip_from (skip : nat) (s : string) : string :=
  match s with
  | EmptyString => EmptyString
  | String _ s' =>
      match skip with
      | S k => lstrip_from k s'
      | O =>
          match space_len s with
          | O => s
          | S k => lstrip_from k s'
          end
      end
  end.

Definition lstrip (s : string) : string := lstrip_from 0 s.

(** The string holds whitespace characters only. *)
Definition all_space (s : string) : bool := String.eqb (lstrip s) EmptyString.

(** [s.rstrip()]: what is left when the whitespace characters the string
    ends with are removed. *)
Fixpoint rstrip (s : string) : string :=
  match s with
  | EmptyString => EmptyString
  | String c s' => if all_space s then EmptyString else String c (rstrip s')
  end.

(** [s.strip()] *)
Definition strip (s : string) : string := rstrip (lstrip s).

(** [s.replace(old, new)] for a non-empty [old]: scan from the left; at a
    position where [old] starts, emit [new] and jump over [old]; elsewhere
    copy one character.  [skip] counts the characters of a matched [old]
    that are still to be jumped over. *)
Fixpoint replace_from (old new : string) (skip : nat) (s : string) : string :=
  match s with
  | EmptyString => EmptyString
  | String c s' =>
      match skip with
      | S k => replace_from old new k s'
      | O =>
          if String.prefix old s
          then new ++ replace_from old new (String.length old - 1) s'
          else String c (replace_from old new 0 s')
      end
  end.

Definition replace (old new s : string) : string := replace_from old new 0 s.

(** [s.upper()] for an ASCII string [s]. *)
Definition upper_char (c : ascii) : ascii :=
  let n := nat_of_ascii c in
  if ((97 <=? n) && (n <=? 122))%nat then ascii_of_nat (n - 32) else c.

Fixpoint upper (s : string) : string :=
  match s with
  | EmptyString => EmptyString
  | String c s' => String (upper_char c) (upper s')
  end.

(** [s[n:]] *)
Fixpoint drop (n : nat) (s : string) : string :=
  match n, s with
  | O, _ => s
  | S k, EmptyString => EmptyString
  | S k, String _ s' => drop k s'
  end.

(** [str(n)] for an [int]. *)
Definition str_of_int (n : Z) : string := NilZero.string_of_int (Z.to_int n).

(** [sep.join(parts)] *)
Fixpoint join (sep : string) (parts : list string) : string :=
  match parts with
  | [] => EmptyString
  | [p] => p
  | p :: rest => p ++ sep ++ join sep rest
  end.

(** [sub in s] *)
Fixpoint contains (sub s : string) : bool :=
  if String.prefix sub s then true
  else match s with
       | EmptyString => false
       | String _ s' => contains sub s'
       end.

(** Truthiness of an optional string: [None] and the empty string are
    falsy. *)
Definition truthy (o : option string) : bool :=
  match o with
  | Some s => negb (String.eqb s EmptyString)
  | None => false
  end.

(** [o or EMPTY], with [EMPTY] the empty string. *)
Definition or_empty (o : option string) : string :=
  match o with
  | Some s => s
  | None => EmptyString
  end.

(** Truthiness of a string: only the empty string is falsy. *)
Definition nonempty (s : string) : bool := negb (String.eqb s EmptyString).

(** [x in xs] for a tuple or set of strings. *)
Definition str_in (x : string) (xs : list string) : bool :=
  existsb (String.eqb x) xs.

(** [s.lower()] for an ASCII string [s]. *)
Definition lower_char (c : ascii) : ascii :=
  let n := nat_of_ascii c in
  if ((65 <=? n) && (n <=? 90))%nat then ascii_of_nat (n + 32) else c.

Fixpoint lower (s : string) : string :=
  match s with
  | EmptyString => EmptyString
  | String c s' => String (lower_char c) (lower s')
  end.

(** [c.isalnum()] for an ASCII character [c]. *)
Definition isalnum (c : ascii) : bool :=
  let n := nat_of_ascii c in
  (((48 <=? n) && (n <=? 57)) || ((65 <=? n) && (n <=? 90))
   || ((97 <=? n) && (n <=? 122)))%nat.

(** [s.isascii()] *)
Fixpoint isascii (s : string) : bool :=
  match s with
  | EmptyString => true
  | String c s' => (nat_of_ascii c <? 128)%nat && isascii s'
  end.

(** [s.lstrip(ch)], [s.rstrip(ch)] and [s.strip(ch)] for one character. *)
Fixpoint lstrip_char (ch : ascii) (s : string) : string :=
  match s with
  | EmptyString => EmptyString
  | String c s' => if Ascii.eqb c ch then lstrip_char ch s' else s
  end.

Fixpoint rstrip_char (ch : ascii) (s : string) : string :=
  match s with
  | EmptyString => EmptyString
  | String c s' =>
      match rstrip_char ch s' with
      | EmptyString => if Ascii.eqb c ch then EmptyString else String c EmptyString
      | r => String c r
      end
  end.

Definition strip_char (ch : ascii) (s : string) : string :=
  rstrip_char ch (lstrip_char ch s).

(** [str.join] of the empty separator over the images of the characters. *)
Fixpoint map_chars (f : ascii -> ascii) (s : string) : string :=
  match s with
  | EmptyString => EmptyString
  | String c s' => String (f c) (map_chars f s')
  end.

(** [s.endswith(p)] *)
Fixpoint endswith (p s : string) : bool :=
  if String.eqb s p then true
  else match s with
       | EmptyString => false
       | String _ s' => endswith p s'
       end.

End Py.

(** ** [shlex.quote], as in CPython's [Lib/shlex.py] *)

Module Shlex.

(** The characters [_find_unsafe] does not match: [\w] under [re.ASCII]
    and [@%+=:,./-]. *)
Definition safe_char (c : ascii) : bool :=
  let n := nat_of_ascii c in
  (((48 <=? n) && (n <=? 57)) || ((65 <=? n) && (n <=? 90))
   || ((97 <=? n) && (n <=? 122)) || (n =? 95)
   || (n =? 64) || (n =? 37) || (n =? 43) || (n =? 61) || (n =? 58)
   || (n =? 44) || (n =? 46) || (n =? 47) || (n =? 45))%nat.

Fixpoint all_safe (s : string) : bool :=
  match s with
  | EmptyString => true
  | String c s' => safe_char c && all_safe s'
  end.

(** The replacement for a single quote: close the quotes, a double-quoted
    single quote, open the quotes again. *)
Definition squote_escape : string :=
  String "'" (String "034" (String "'" (String "034" (String "'" EmptyString)))).

Definition quote (s : string) : string :=
  match s with
  | EmptyString => "''"
  | String _ _ =>
      if all_safe s then s
      else "'" ++ Py.replace "'" squote_escape s ++ "'"
  end.

End Shlex.

(** ** Insertion-ordered dictionaries with string keys *)

Module Dict.

Definition t : Type := list (string * string).

(** [d.get(k)] *)
Fixpoint get (k : string) (d : t) : option string :=
  match d with
  | [] => None
  | (k', v) :: d' => if String.eqb k' k then Some v else get k d'
  end.

(** [k in d] *)
Definition mem (k : string) (d : t) : bool :=
  match get k d with
  | Some _ => true
  | None => false
  end.

(** [d[k] = v]: an existing key keeps its place, a new key goes last. *)
Fixpoint set (k v : string) (d : t) : t :=
  match d with
  | [] => [(k, v)]
  | (k', v') :: d' =>
      if String.eqb k' k then (k, v) :: d' else (k', v') :: set k v d'
  end.

(** [d.setdefault(k, v)] *)
Definition setdefault (k v : string) (d : t) : t :=
  if mem k d then d else set k v d.

Definition keys (d : t) : list string := map fst d.

End Dict.

(** ** The inspection record *)

(** [Config.Entrypoint] and [Config.Cmd]: absent or [null], a string, or a
    list of strings. *)
Inductive StrOrList : Type :=
  | JNull
  | JStr (s : string)
  | JList (l : list string).

Record RestartPolicy : Type := mkRestartPolicy {
  rp_Name : option string;
  rp_MaximumRetryCount : option Z
}.

Record Binding : Type := mkBinding {
  b_HostIp : option string;
  b_HostPort : option string
}.

(** [NetworkSettings.Ports]: container port to its bindings ([null] for an
    exposed port that is not published), in the mapping's iteration order. *)
Definition PortSettings : Type := list (string * option (list Binding)).

Record Mount : Type := mkMount {
  m_Type : option string;
  m_Source : option string;
  m_Name : option string;
  m_Destination : option string;
  m_RW : option bool
}.

Record Device : Type := mkDevice {
  d_PathOnHost : option string;
  d_PathInContainer : option string;
  d_CgroupPermissions : option string
}.

Record HostConfig : Type := mkHostConfig {
  hc_NetworkMode : option string;
  hc_RestartPolicy : RestartPolicy;
  hc_CapAdd : option (list string);
  hc_Sysctls : option Dict.t;
  hc_Devices : option (list Device)
}.

Record Config : Type := mkConfig {
  cfg_Env : option (list string);
  cfg_Labels : option Dict.t;
  cfg_Image : option string;
  cfg_Entrypoint : StrOrList;
  cfg_Cmd : StrOrList
}.

Record Container : Type := mkContainer {
  c_name : string;
  c_Config : Config;
  c_HostConfig : HostConfig;
  c_Ports : option PortSettings;
  c_Mounts : option (list Mount);
  c_image_tags : list string;
  c_image_short_id : string
}.

(** What a call does: it returns, raises, or ends the process. *)
Inductive Exn : Type :=
  | ValueError (msg : string).

Inductive Outcome (A : Type) : Type :=
  | Returned (a : A)
  | Raised (e : Exn)
  | Exited (code : Z).
Arguments Returned {A} a.
Arguments Raised {A} e.
Arguments Exited {A} code.

(** ** Constants *)

Definition SYSTEM_ENV_KEYS : list string :=
  ["PATH"; "HOSTNAME"; "TERM"; "HOME"; "PWD"].
Definition IGNORE_LABEL_PREFIXES : list string := ["org.opencontainers"].
Definition IGNORE_LABEL_KEYS : list string := ["maintainer"; "build_version"].
Definition DEFAULT_LINUX_CAPS : list string :=
  ["AUDIT_WRITE"; "CHOWN"; "DAC_OVERRIDE"; "FOWNER"; "FSETID"; "KILL";
   "MKNOD"; "NET_BIND_SERVICE"; "NET_RAW"; "SETFCAP"; "SETGID"; "SETPCAP";
   "SETUID"; "SYS_CHROOT"].

(** The placeholder of [--add-label] and [--add-env]. *)
Definition PLACEHOLDER : string := "{{name}}".

(** [s.replace("{{name}}", name)] *)
Definition render (name s : string) : string := Py.replace PLACEHOLDER name s.

(** ** Parsing the operator's KEY=VALUE arguments *)

Definition KV : Type := (string * string)%type.

Definition msg_expected (kind raw : string) : string :=
  "Invalid " ++ kind ++ " '" ++ raw ++ "', expected KEY=VALUE".

Definition msg_empty_key (kind raw : string) : string :=
  "Invalid " ++ kind ++ " '" ++ raw ++ "', key is empty".

(** The body of the [for raw in raw_items] loop, with [parsed] the list
    built so far. *)
Fixpoint parse_kv_loop (kind : string) (raw_items : list string)
    (parsed : list KV) : Outcome (list KV) :=
  match raw_items with
  | [] => Returned parsed
  | raw :: rest =>
      if negb (Py.contains_eq raw) then Raised (ValueError (msg_expected kind raw))
      else
        let (key, value) := Py.split_eq raw in
        let key := Py.strip key in
        if negb (Py.nonempty key) then Raised (ValueError (msg_empty_key kind raw))
        else parse_kv_loop kind rest (parsed ++ [(key, value)])%list
  end.

Definition parse_kv_args (raw_items : list string) (kind : string)
    : Outcome (list KV) :=
  parse_kv_loop kind raw_items [].

Definition parse_label_args (label_args : list string) : Outcome (list KV) :=
  parse_kv_args label_args "label".

Definition parse_env_args (env_args : list string) : Outcome (list KV) :=
  parse_kv_args env_args "environment variable".

(** ** Filters *)

Definition keep_env (item : string) : bool :=
  if negb (Py.contains_eq item) then false
  else
    let (key, _) := Py.split_eq item in
    if Py.str_in key SYSTEM_ENV_KEYS || Py.startswith "DOCKER_" key then false
    else true.

Definition filter_env_vars (env_list : option (list string)) : list string :=
  filter keep_env (match env_list with Some l => l | None => [] end).

Definition keep_label (kv : KV) : bool :=
  negb (Py.str_in (fst kv) IGNORE_LABEL_KEYS)
  && negb (existsb (fun p => Py.startswith p (fst kv)) IGNORE_LABEL_PREFIXES).

Definition filter_labels (labels : option Dict.t) : Dict.t :=
  filter keep_label (match labels with Some d => d | None => [] end).

(** ** Extractors *)

Definition format_restart_policy (policy : RestartPolicy) : string :=
  let name := Py.or_empty (rp_Name policy) in
  if negb (Py.nonempty name) then EmptyString
  else if String.eqb name "on-failure" then
    match rp_MaximumRetryCount policy with
    | Some retry =>
        if negb (Z.eqb retry 0) then "on-failure:" ++ Py.str_of_int retry
        else name
    | None => name
    end
  else name.

(** The [-p] argument one binding of [container_port] asks for, if any. *)
Definition binding_arg (container_port : string) (binding : Binding)
    : option string :=
  let host_port := b_HostPort binding in
  if negb (Py.truthy host_port) then None
  else
    let host_ip := b_HostIp binding in
    let host :=
      if Py.truthy host_ip
         && negb (Py.str_in (Py.or_empty host_ip) ["0.0.0.0"; "::"; EmptyString])
      then Py.or_empty host_ip ++ ":" ++ Py.or_empty host_port
      else Py.or_empty host_port in
    let spec := host ++ ":" ++ container_port in
    Some ("-p " ++ Shlex.quote spec).

(** The state of the loops of [collect_ports]: [port_args] and [seen]. *)
Definition PortsState : Type := (list string * list string)%type.

Definition ports_binding_step (container_port : string) (st : PortsState)
    (binding : Binding) : PortsState :=
  let (port_args, seen) := st in
  match binding_arg container_port binding with
  | None => st
  | Some arg =>
      if Py.str_in arg seen then st
      else ((port_args ++ [arg])%list, arg :: seen)
  end.

Definition ports_entry_step (st : PortsState)
    (entry : string * option (list Binding)) : PortsState :=
  let (container_port, bindings) := entry in
  match bindings with
  | None | Some [] => st
  | Some bs => fold_left (ports_binding_step container_port) bs st
  end.

Definition collect_ports (port_settings : option PortSettings) : list string :=
  fst (fold_left ports_entry_step
         (match port_settings with Some ps => ps | None => [] end)
         ([], [])).

Definition mount_arg (mount : Mount) : option string :=
  let destination := m_Destination mount in
  if negb (Py.truthy destination) then None
  else
    let ro_suffix :=
      match m_RW mount with Some false => ":ro" | _ => EmptyString end in
    match m_Type mount with
    | Some mount_type =>
        if String.eqb mount_type "bind" then
          let source := m_Source mount in
          if negb (Py.truthy source) then None
          else Some ("-v " ++ Shlex.quote
                 (Py.or_empty source ++ ":" ++ Py.or_empty destination ++ ro_suffix))
        else if String.eqb mount_type "volume" then
          let name := if Py.truthy (m_Name mount) then m_Name mount
                      else m_Source mount in
          if negb (Py.truthy name) then None
          else Some ("-v " ++ Shlex.quote
                 (Py.or_empty name ++ ":" ++ Py.or_empty destination ++ ro_suffix))
        else None
    | None => None
    end.

Fixpoint somes {A : Type} (l : list (option A)) : list A :=
  match l with
  | [] => []
  | Some a :: l' => a :: somes l'
  | None :: l' => somes l'
  end.

Definition collect_mounts (mounts : option (list Mount)) : list string :=
  somes (map mount_arg (match mounts with Some l => l | None => [] end)).

(** [_norm] of [collect_capabilities], for a capability written in
    ASCII. *)
Definition norm_cap (cap : string) : string :=
  let cap_up := Py.upper cap in
  if Py.startswith "CAP_" cap_up then Py.drop 4 cap_up else cap_up.

Definition collect_capabilities (host_cfg : HostConfig) : list string :=
  let caps := match hc_CapAdd host_cfg with Some l => l | None => [] end in
  map (fun cap => "--cap-add " ++ Shlex.quote cap)
      (filter (fun cap => negb (Py.str_in (norm_cap cap) DEFAULT_LINUX_CAPS)) caps).

Definition collect_sysctls (host_cfg : HostConfig) : list string :=
  let sysctls := match hc_Sysctls host_cfg with Some d => d | None => [] end in
  map (fun kv => "--sysctl " ++ Shlex.quote (fst kv ++ "=" ++ snd kv)) sysctls.

Definition device_arg (device : Device) : option string :=
  let path_on_host := d_PathOnHost device in
  let path_in_container := d_PathInContainer device in
  if negb (Py.truthy path_on_host) || negb (Py.truthy path_in_container) then None
  else
    let cgroup_perms :=
      if Py.truthy (d_CgroupPermissions device)
      then Py.or_empty (d_CgroupPermissions device) else "rwm" in
    Some ("--device " ++ Shlex.quote
            (Py.or_empty path_on_host ++ ":" ++ Py.or_empty path_in_container
             ++ ":" ++ cgroup_perms)).

Definition collect_devices (host_cfg : HostConfig) : list string :=
  somes (map device_arg
           (match hc_Devices host_cfg with Some l => l | None => [] end)).

(** ** Mergers *)

Definition merge_labels_step (name : string) (merged : Dict.t) (addition : KV)
    : Dict.t :=
  let (key, raw_value) := addition in
  let rendered_key := render name key in
  if Dict.mem rendered_key merged then merged
  else Dict.set rendered_key (render name raw_value) merged.

Definition merge_labels (existing : Dict.t) (additions : list KV)
    (name : string) : Dict.t :=
  fold_left (merge_labels_step name) additions existing.

Definition env_map_step (env_map : Dict.t) (item : string) : Dict.t :=
  if negb (Py.contains_eq item) then env_map
  else
    let (key, value) := Py.split_eq item in
    Dict.setdefault key value env_map.

Definition merge_envs_step (name : string) (env_map : Dict.t) (addition : KV)
    : Dict.t :=
  let (key, raw_value) := addition in
  if Dict.mem key env_map then env_map
  else Dict.set key (render name raw_value) env_map.

(** The [env_map] of [merge_envs] when its two loops are done. *)
Definition merge_envs_map (existing_envs : list string) (additions : list KV)
    (name : string) : Dict.t :=
  fold_left (merge_envs_step name) additions
    (fold_left env_map_step existing_envs []).

Definition env_item (kv : KV) : string := fst kv ++ "=" ++ snd kv.

Definition merge_envs (existing_envs : list string) (additions : list KV)
    (name : string) : list string :=
  map env_item (merge_envs_map existing_envs additions name).

(** ** The reconstruction engine *)

(** [v or []] followed by the [isinstance(v, str)] wrapping. *)
Definition as_list (v : StrOrList) : list string :=
  match v with
  | JNull => []
  | JStr s => if Py.nonempty s then [s] else []
  | JList l => l
  end.

Definition network_args (host_cfg : HostConfig) (add_network : option string)
    : list string :=
  let network_mode := hc_NetworkMode host_cfg in
  if Py.truthy network_mode
     && negb (Py.str_in (Py.or_empty network_mode) ["bridge"; "default"])
  then ["--network " ++ Shlex.quote (Py.or_empty network_mode)]
  else if Py.truthy add_network
  then ["--network " ++ Shlex.quote (Py.or_empty add_network)]
  else [].

Definition restart_args (host_cfg : HostConfig) (add_restart : option string)
    : list string :=
  let formatted := format_restart_policy (hc_RestartPolicy host_cfg) in
  let restart_value :=
    if Py.nonempty formatted then Some formatted else add_restart in
  if Py.truthy restart_value
  then ["--restart " ++ Shlex.quote (Py.or_empty restart_value)]
  else [].

Definition image_of (container : Container) : string :=
  let cfg := c_Config container in
  if Py.truthy (cfg_Image cfg) then Py.or_empty (cfg_Image cfg)
  else match c_image_tags container with
       | tag :: _ => tag
       | [] => c_image_short_id container
       end.

(** The parts of [Cmd] that follow the image. *)
Definition cmd_parts (cfg : Config) (include_cmd : bool) : list string :=
  if include_cmd then
    let entrypoint := as_list (cfg_Entrypoint cfg) in
    let cmd := as_list (cfg_Cmd cfg) in
    match entrypoint with
    | _ :: _ => cmd
    | [] => tl cmd
    end
  else [].

Definition env_arg (env : string) : string := "-e " ++ Shlex.quote env.

Definition label_arg (kv : KV) : string :=
  "--label " ++ Shlex.quote (fst kv ++ "=" ++ snd kv).

(** The list [args] of [format_command] when it is joined. *)
Definition format_command_args (container : Container)
    (add_label_pairs add_env_pairs : list KV)
    (add_restart add_network : option string) (include_cmd : bool)
    : list string :=
  let name := c_name container in
  let cfg := c_Config container in
  let host_cfg := c_HostConfig container in
  let env_vars := merge_envs (filter_env_vars (cfg_Env cfg)) add_env_pairs name in
  let labels := merge_labels (filter_labels (cfg_Labels cfg)) add_label_pairs name in
  ([("--name " ++ Shlex.quote name)%string]
   ++ network_args host_cfg add_network
   ++ restart_args host_cfg add_restart
   ++ collect_ports (c_Ports container)
   ++ collect_mounts (c_Mounts container)
   ++ collect_devices host_cfg
   ++ collect_capabilities host_cfg
   ++ collect_sysctls host_cfg
   ++ map env_arg env_vars
   ++ map label_arg labels
   ++ [Shlex.quote (image_of container)]
   ++ map Shlex.quote (cmd_parts cfg include_cmd))%list.

(** Backslash, newline: the line continuation between two arguments. *)
Definition CONTINUATION : string :=
  String " " (String "\" (String "010" EmptyString)).

Definition format_command (container : Container)
    (add_label_pairs add_env_pairs : list KV)
    (add_restart add_network : option string) (include_cmd : bool) : string :=
  Py.join CONTINUATION
    ("docker run"
     :: map (fun arg => "  " ++ arg)
          (format_command_args container add_label_pairs add_env_pairs
             add_restart add_network include_cmd)).

Definition render_container_block (container : Container)
    (add_label_pairs add_env_pairs : list KV)
    (add_restart add_network : option string) (include_cmd : bool) : string :=
  "# Container: " ++ c_name container ++ String "010"
    (format_command container add_label_pairs add_env_pairs
       add_restart add_network include_cmd ++ String "010" EmptyString).

(** ** The caller's policy in [main] *)

(** The [add_restart] argument [main] passes for one container. *)
Definition restart_override (container : Container) (add_restart : option string)
    : option string :=
  if negb (Py.nonempty
             (format_restart_policy (hc_RestartPolicy (c_HostConfig container))))
  then add_restart
  else Some EmptyString.

(** The [add_network] argument [main] passes for one container. *)
Definition network_override (container : Container) (add_network : option string)
    : option string :=
  match hc_NetworkMode (c_HostConfig container) with
  | None => add_network
  | Some mode =>
      if Py.str_in mode [EmptyString; "bridge"; "default"] then add_network
      else None
  end.

(** One element of [blocks] in [main]. *)
Definition main_block (container : Container) (label_pairs env_pairs : list KV)
    (add_restart add_network : option string) (include_cmd : bool)
    : string * string :=
  (c_name container,
   render_container_block container label_pairs env_pairs
     (restart_override container add_restart)
     (network_override container add_network)
     include_cmd).

(** The list [args] inside the block [main] renders for one container. *)
Definition main_args (container : Container) (label_pairs env_pairs : list KV)
    (add_restart add_network : option string) (include_cmd : bool)
    : list string :=
  format_command_args container label_pairs env_pairs
    (restart_override container add_restart)
    (network_override container add_network)
    include_cmd.

(** ** File names, selection and output *)

(** [sanitize_filename] for an ASCII name, as Docker's container names
    are: there [str.isalnum] is the ASCII test used here. *)
Definition sanitize_filename (name : string) : string :=
  let trimmed :=
    match Py.strip_char "/" name with
    | EmptyString => "container"
    | t => t
    end in
  Py.map_chars
    (fun ch =>
       if Py.isalnum ch
          || Ascii.eqb ch "-" || Ascii.eqb ch "_" || Ascii.eqb ch "."
       then ch else "_"%char)
    trimmed.

(** [select_containers] for ASCII patterns and names, where [str.lower]
    is the ASCII mapping used here. *)
Definition select_containers (containers : list Container)
    (patterns : list string) : list Container :=
  match patterns with
  | [] => containers
  | _ :: _ =>
      let lowered := map Py.lower patterns in
      filter
        (fun c =>
           existsb (fun pat => Py.contains pat (Py.lower (c_name c))) lowered)
        containers
  end.

(** The world the output functions act on: the files, by path, with their
    content and mode, and the lines still to be read from the terminal.
    Creating the directory and writing succeed; what is printed is not
    recorded. *)
Record File : Type := mkFile {
  f_content : string;
  f_mode : Z
}.

Record World : Type := mkWorld {
  w_files : list (string * File);
  w_stdin : list string
}.

(** An output function returns a value in a new world, or [input] raises
    [EOFError] in the world reached so far. *)
Inductive IO (A : Type) : Type :=
  | Done (a : A) (w : World)
  | EOFError (w : World).
Arguments Done {A} a w.
Arguments EOFError {A} w.

Fixpoint file_at (path : string) (files : list (string * File)) : option File :=
  match files with
  | [] => None
  | (p, f) :: rest => if String.eqb p path then Some f else file_at path rest
  end.

(** [os.path.exists(path)] *)
Definition path_exists (path : string) (w : World) : bool :=
  match file_at path (w_files w) with
  | Some _ => true
  | None => false
  end.

Fixpoint put_file (path : string) (f : File) (files : list (string * File))
    : list (string * File) :=
  match files with
  | [] => [(path, f)]
  | (p, g) :: rest =>
      if String.eqb p path then (path, f) :: rest
      else (p, g) :: put_file path f rest
  end.

(** [open(path, "w")], [f.write(content)] and [os.chmod(path, 0o755)]. *)
Definition write_script (path content : string) (w : World) : World :=
  mkWorld (put_file path (mkFile content 493) (w_files w)) (w_stdin w).

(** [os.path.join(directory, filename)] on a POSIX system. *)
Definition path_join (directory filename : string) : string :=
  if Py.startswith "/" filename then filename
  else if String.eqb directory EmptyString || Py.endswith "/" directory
  then directory ++ filename
  else directory ++ "/" ++ filename.

(** The [while True] loop of [should_overwrite] over the lines typed
    (letter case as for ASCII lines). *)
Fixpoint prompt_loop (overwrite_all : bool) (files : list (string * File))
    (stdin : list string) : IO (bool * bool) :=
  match stdin with
  | [] => EOFError (mkWorld files [])
  | line :: rest =>
      let response := Py.lower (Py.strip line) in
      if Py.str_in response ["y"; "yes"]
      then Done (true, overwrite_all) (mkWorld files rest)
      else if Py.str_in response ["a"; "all"]
      then Done (true, true) (mkWorld files rest)
      else if Py.str_in response [EmptyString; "n"; "no"]
      then Done (false, overwrite_all) (mkWorld files rest)
      else prompt_loop overwrite_all files rest
  end.

Definition should_overwrite (path : string) (overwrite_all : bool) (w : World)
    : IO (bool * bool) :=
  if negb (path_exists path w) then Done (true, overwrite_all) w
  else if overwrite_all then Done (true, overwrite_all) w
  else prompt_loop overwrite_all (w_files w) (w_stdin w).

Definition NEWLINE : string := String "010" EmptyString.

Definition SHEBANG : string := "#!/bin/bash".

Definition write_output_combined (path : string) (blocks : list string)
    (w : World) : IO Z :=
  match should_overwrite path false w with
  | EOFError w' => EOFError w'
  | Done (should_write, _) w' =>
      if negb should_write then Done 0%Z w'
      else
        let script := SHEBANG :: EmptyString :: blocks in
        let content := Py.rstrip (Py.join NEWLINE script) ++ NEWLINE in
        Done 1%Z (write_script path content w')
  end.

(** The [for name, block in blocks] loop of [write_output_per_container]. *)
Fixpoint write_blocks (directory : string) (no_overwrite : bool)
    (blocks : list (string * string)) (written : Z) (overwrite_all : bool)
    (w : World) : IO Z :=
  match blocks with
  | [] => Done written w
  | (name, block) :: rest =>
      let filename := sanitize_filename name ++ ".sh" in
      let full_path := path_join directory filename in
      if no_overwrite && path_exists full_path w
      then write_blocks directory no_overwrite rest written overwrite_all w
      else
        match should_overwrite full_path overwrite_all w with
        | EOFError w' => EOFError w'
        | Done (should_write, overwrite_all') w' =>
            if negb should_write
            then write_blocks directory no_overwrite rest written overwrite_all' w'
            else
              let content := SHEBANG ++ NEWLINE ++ NEWLINE
                             ++ Py.rstrip block ++ NEWLINE in
              write_blocks directory no_overwrite rest (written + 1)%Z
                overwrite_all' (write_script full_path content w')
        end
  end.

Definition write_output_per_container (directory : string)
    (blocks : list (string * string)) (no_overwrite : bool) (w : World) : IO Z :=
  write_blocks directory no_overwrite blocks 0%Z false w.

(** The parsed command line. *)
Record Args : Type := mkArgs {
  a_patterns : list string;
  a_add_labels : list string;
  a_add_envs : list string;
  a_output : option string;
  a_per_container_dir : string;
  a_include_cmd : bool;
  a_add_restart : option string;
  a_add_network : option string;
  a_no_overwrite : bool
}.

(** [main] from the parsed arguments and the list of running containers
    on: the exit status, in the world it leaves. *)
Definition main_from (args : Args) (running : list Container) (w : World)
    : IO Z :=
  match parse_label_args (a_add_labels args) with
  | Returned label_pairs =>
      match parse_env_args (a_add_envs args) with
      | Returned env_pairs =>
          match select_containers running (a_patterns args) with
          | [] => Done 0%Z w
          | target_containers =>
              let blocks :=
                map (fun c =>
                       main_block c label_pairs env_pairs (a_add_restart args)
                         (a_add_network args) (a_include_cmd args))
                    target_containers in
              if Py.truthy (a_output args) then
                match write_output_combined (Py.or_empty (a_output args))
                        (map snd blocks) w with
                | Done _ w' => Done 0%Z w'
                | EOFError w' => EOFError w'
                end
              else
                match write_output_per_container (a_per_container_dir args)
                        blocks (a_no_overwrite args) w with
                | Done _ w' => Done 0%Z w'
                | EOFError w' => EOFError w'
                end
          end
      | _ => Done 2%Z w
      end
  | _ => Done 2%Z w
  end.

(** ** Reference definitions the properties are stated against *)

Module Posix.

(** Modelled from the spec: the POSIX-shell-compatible tokenizer of the
    shell-quoting round trip; the repository only quotes and has no parser.
    It follows the quoting rules of the Shell Command Language: blanks
    separate words, single quotes keep every character, double quotes keep
    every character but let a backslash escape [$], the backquote, the double
    quote, the backslash and the newline, an unquoted backslash keeps the
    next character, and [#] at the start of a word opens a comment.  An
    unquoted character that the shell would act upon (an operator, an
    expansion, a pattern) makes the input something else than a list of
    plain words, and so do an open quote and a trailing backslash: the
    result is then [None]. *)

Inductive CharClass : Type :=
  | Blank | SQuote | DQuote | Backslash | Hash | Newline | Dollar | Backquote
  | Special | Ordinary.

Definition classify (c : ascii) : CharClass :=
  let n := nat_of_ascii c in
  if ((n =? 32) || (n =? 9))%nat then Blank
  else if (n =? 10)%nat then Newline
  else if (n =? 39)%nat then SQuote
  else if (n =? 34)%nat then DQuote
  else if (n =? 92)%nat then Backslash
  else if (n =? 35)%nat then Hash
  else if (n =? 36)%nat then Dollar
  else if (n =? 96)%nat then Backquote
  else if ((n =? 124) || (n =? 38) || (n =? 59) || (n =? 60) || (n =? 62)
           || (n =? 40) || (n =? 41) || (n =? 42) || (n =? 63) || (n =? 91)
           || (n =? 126))%nat then Special
  else Ordinary.

Inductive Mode : Type :=
  | Plain | PlainEsc | Single | Double | DoubleEsc | Comment.

(** The word being read, if one has been started. *)
Definition push (c : ascii) (cur : option string) : option string :=
  Some (Py.or_empty cur ++ String c EmptyString).

Definition start (cur : option string) : option string :=
  Some (Py.or_empty cur).

Definition close (cur : option string) (rest : option (list string))
    : option (list string) :=
  match cur, rest with
  | Some w, Some ws => Some (w :: ws)
  | None, Some ws => Some ws
  | _, None => None
  end.

Fixpoint words (m : Mode) (cur : option string) (s : string)
    : option (list string) :=
  match s with
  | EmptyString =>
      match m with
      | Plain | Comment => close cur (Some [])
      | _ => None
      end
  | String c s' =>
      match m with
      | Plain =>
          match classify c with
          | Blank | Newline => close cur (words Plain None s')
          | SQuote => words Single (start cur) s'
          | DQuote => words Double (start cur) s'
          | Backslash => words PlainEsc cur s'
          | Hash =>
              match cur with
              | None => words Comment None s'
              | Some _ => words Plain (push c cur) s'
              end
          | Dollar | Backquote | Special => None
          | Ordinary => words Plain (push c cur) s'
          end
      | PlainEsc =>
          match classify c with
          | Newline => words Plain cur s'
          | _ => words Plain (push c cur) s'
          end
      | Single =>
          match classify c with
          | SQuote => words Plain cur s'
          | _ => words Single (push c cur) s'
          end
      | Double =>
          match classify c with
          | DQuote => words Plain cur s'
          | Backslash => words DoubleEsc cur s'
          | Dollar | Backquote => None
          | _ => words Double (push c cur) s'
          end
      | DoubleEsc =>
          match classify c with
          | Dollar | Backquote | DQuote | Backslash => words Double (push c cur) s'
          | Newline => words Double cur s'
          | _ => words Double (push c (push "\" cur)) s'
          end
      | Comment =>
          match classify c with
          | Newline => words Plain None s'
          | _ => words Comment None s'
          end
      end
  end.

(** The words of a command line. *)
Definition tokens (s : string) : option (list string) := words Plain None s.

End Posix.

Module Ref.

(** [xs] occurs in [l] in this relative order. *)
Fixpoint subseq (xs l : list string) : bool :=
  match xs, l with
  | [], _ => true
  | _ :: _, [] => false
  | x :: xs', y :: l' =>
      if String.eqb x y then subseq xs' l' else subseq xs l'
  end.

(** No element of [l] has [sub] as a substring. *)
Definition none_mentions (sub : string) (l : list string) : bool :=
  forallb (fun arg => negb (Py.contains sub arg)) l.

(** The first value bound to [key] in a list of KEY=VALUE items. *)
Fixpoint env_lookup (key : string) (items : list string) : option string :=
  match items with
  | [] => None
  | item :: rest =>
      if Py.contains_eq item && String.eqb (fst (Py.split_eq item)) key
      then Some (snd (Py.split_eq item))
      else env_lookup key rest
  end.

(** Every value once, at its first occurrence. *)
Fixpoint keep_first (l : list string) : list string :=
  match l with
  | [] => []
  | x :: l' => x :: filter (fun y => negb (String.eqb y x)) (keep_first l')
  end.

(** A host IP that is not set or is a wildcard. *)
Definition no_host_ip (host_ip : option string) : bool :=
  match host_ip with
  | None => true
  | Some ip =>
      String.eqb ip "0.0.0.0" || String.eqb ip "::" || String.eqb ip EmptyString
  end.

(** The [-p] argument of one binding, after the specification's words. *)
Definition port_flag (container_port : string) (binding : Binding)
    : option string :=
  match b_HostPort binding with
  | None => None
  | Some EmptyString => None
  | Some host_port =>
      match b_HostIp binding with
      | Some ip =>
          if no_host_ip (Some ip)
          then Some ("-p " ++ Shlex.quote (host_port ++ ":" ++ container_port))
          else Some ("-p " ++ Shlex.quote
                       (ip ++ ":" ++ host_port ++ ":" ++ container_port))
      | None => Some ("-p " ++ Shlex.quote (host_port ++ ":" ++ container_port))
      end
  end.

(** The [-p] arguments of the whole ports map, duplicates included, in the
    order of the map and of each binding list. *)
Definition port_flags (port_settings : option PortSettings) : list string :=
  flat_map
    (fun entry : string * option (list Binding) =>
       match snd entry with
       | None => []
       | Some bindings => somes (map (port_flag (fst entry)) bindings)
       end)
    (match port_settings with Some ps => ps | None => [] end).

(** One turn of the inner loop of [collect_ports] on the argument a
    binding yields. *)
Definition seen_step (st : PortsState) (arg : string) : PortsState :=
  let (port_args, seen) := st in
  if Py.str_in arg seen then st
  else ((port_args ++ [arg])%list, arg :: seen).

(** An addition with the placeholder replaced in key and value. *)
Definition rendered_pair (name : string) (addition : KV) : KV :=
  (render name (fst addition), render name (snd addition)).

(** An addition with the placeholder replaced in the value only. *)
Definition rendered_value (name : string) (addition : KV) : KV :=
  (fst addition, render name (snd addition)).

(** Insert-if-absent of a list of pairs, in order. *)
Definition add_missing (pairs : list KV) (d : Dict.t) : Dict.t :=
  fold_left (fun acc kv => Dict.setdefault (fst kv) (snd kv) acc) pairs d.

(** No key holds the separator of KEY=VALUE items. *)
Definition clean_keys (d : Dict.t) : Prop :=
  Forall (fun kv : KV => Py.contains_eq (fst kv) = false) d.

(** The key and value [parse_kv_args] reads in one well-formed item. *)
Definition kv_of (raw : string) : KV :=
  (Py.strip (fst (Py.split_eq raw)), snd (Py.split_eq raw)).

(** An item without ["="], or whose key is empty once stripped. *)
Definition malformed (raw : string) : bool :=
  negb (Py.contains_eq raw) || String.eqb (fst (kv_of raw)) EmptyString.

Definition kv_error (kind raw : string) : string :=
  if Py.contains_eq raw then msg_empty_key kind raw else msg_expected kind raw.

(** The restart policy has a name set. *)
Definition has_restart_name (container : Container) : bool :=
  Py.truthy (rp_Name (hc_RestartPolicy (c_HostConfig container))).

(** The restart formatting with a retry count that counts only when it is
    positive. *)
Definition restart_positive_only (policy : RestartPolicy) : string :=
  match rp_Name policy with
  | None => EmptyString
  | Some name =>
      if String.eqb name "on-failure" then
        match rp_MaximumRetryCount policy with
        | Some retry =>
            if (0 <? retry)%Z then "on-failure:" ++ Py.str_of_int retry else name
        | None => name
        end
      else name
  end.

(** Entrypoint and Cmd as a list: a non-empty string is a one-element
    list, the empty string and [null] are the empty list. *)
Definition normalized (v : StrOrList) : list string :=
  match v with
  | JNull => []
  | JStr EmptyString => []
  | JStr s => [s]
  | JList l => l
  end.

(** The command tail, after the specification's words. *)
Definition command_tail (cfg : Config) (include_cmd : bool) : list string :=
  if include_cmd then
    match normalized (cfg_Entrypoint cfg), normalized (cfg_Cmd cfg) with
    | _ :: _, cmd => cmd
    | [], [] => []
    | [], _ :: parameters => parameters
    end
  else [].

(** Entrypoint and Cmd with every string, the empty one too, taken as a
    one-element list. *)
Definition wrap_any_string (v : StrOrList) : list string :=
  match v with
  | JNull => []
  | JStr s => [s]
  | JList l => l
  end.

Definition tail_wrap_any_string (cfg : Config) (include_cmd : bool)
    : list string :=
  if include_cmd then
    match wrap_any_string (cfg_Entrypoint cfg) with
    | _ :: _ => wrap_any_string (cfg_Cmd cfg)
    | [] => tl (wrap_any_string (cfg_Cmd cfg))
    end
  else [].

(** A key as [parse_kv_args] hands it out: not empty, without the
    separator, without blanks around it. *)
Definition clean_key (k : string) : bool :=
  negb (String.eqb k EmptyString) && negb (Py.contains_eq k)
  && String.eqb (Py.strip k) k.

(** An argument of the command: a flag with its value, or a bare value. *)
Inductive Arg : Type :=
  | Flag (flag value : string)
  | Bare (value : string).

(** The flags [format_command] writes. *)
Definition FLAGS : list string :=
  ["--name"; "--network"; "--restart"; "-p"; "-v"; "--device"; "--cap-add";
   "--sysctl"; "-e"; "--label"].

Definition known_arg (a : Arg) : bool :=
  match a with
  | Flag flag _ => Py.str_in flag FLAGS
  | Bare _ => true
  end.

(** The text of an argument, as [format_command] writes it. *)
Definition arg_text (a : Arg) : string :=
  match a with
  | Flag flag value => flag ++ " " ++ Shlex.quote value
  | Bare value => Shlex.quote value
  end.

(** The words of an argument, as the shell is to read them. *)
Definition arg_words (a : Arg) : list string :=
  match a with
  | Flag flag value => [flag; value]
  | Bare value => [value]
  end.

(** A text that [arg_text] writes for an argument with a known flag. *)
Definition shaped (text : string) : Prop :=
  exists a, known_arg a = true /\ text = arg_text a.

(** The arguments, each after the continuation and the indentation. *)
Fixpoint continued (args : list string) : string :=
  match args with
  | [] => EmptyString
  | arg :: rest => CONTINUATION ++ "  " ++ arg ++ continued rest
  end.

(** No character of the string is a newline. *)
Fixpoint one_line (s : string) : bool :=
  match s with
  | EmptyString => true
  | String c s' => negb (Ascii.eqb c "010") && one_line s'
  end.

(** A character a file name may hold. *)
Definition file_char (c : ascii) : bool :=
  Py.isalnum c || Ascii.eqb c "-" || Ascii.eqb c "_" || Ascii.eqb c ".".

Fixpoint all_chars (p : ascii -> bool) (s : string) : bool :=
  match s with
  | EmptyString => true
  | String c s' => p c && all_chars p s'
  end.

(** Some pattern occurs in the container's name, letter case apart. *)
Definition matches (patterns : list string) (c : Container) : bool :=
  existsb (fun pat => Py.contains (Py.lower pat) (Py.lower (c_name c))) patterns.

(** The host configuration with another list of added capabilities. *)
Definition with_caps (host_cfg : HostConfig) (caps : list string) : HostConfig :=
  mkHostConfig (hc_NetworkMode host_cfg) (hc_RestartPolicy host_cfg) (Some caps)
    (hc_Sysctls host_cfg) (hc_Devices host_cfg).



(** A line typed at the overwrite prompt, as [should_overwrite] reads it. *)
Definition response (line : string) : string := Py.lower (Py.strip line).

Definition is_yes (line : string) : bool := Py.str_in (response line) ["y"; "yes"].

Definition is_all (line : string) : bool := Py.str_in (response line) ["a"; "all"].

Definition is_no (line : string) : bool :=
  Py.str_in (response line) [EmptyString; "n"; "no"].

(** The line is none of the answers the prompt accepts. *)
Definition no_answer (line : string) : bool :=
  negb (is_yes line || is_all line || is_no line).

(** The combined script is at [path] in the second world, executable, with
    the shebang first and one newline after its last character that is not
    whitespace, and no other file differs from the first world. *)
Definition script_written (path : string) (w w' : World) : Prop :=
  (exists body,
     file_at path (w_files w') = Some (mkFile (SHEBANG ++ body ++ NEWLINE) 493)
     /\ Py.rstrip (SHEBANG ++ body) = SHEBANG ++ body)
  /\ (forall q, q <> path -> file_at q (w_files w') = file_at q (w_files w)).


(** A container whose entrypoint is the empty string. *)
Definition empty_entrypoint : Container :=
  mkContainer "job"
    (mkConfig None None (Some "alpine") (JStr EmptyString) (JList ["prog"; "a"]))
    (mkHostConfig None (mkRestartPolicy None None) None None None)
    None None [] "0123456789ab".

(** The end-to-end scenario. *)
Definition web : Container :=
  mkContainer "web"
    (mkConfig (Some ["PATH=/usr/bin"; "TZ=UTC"])
              (Some [("maintainer", "x"); ("app", "web")])
              (Some "nginx:latest") JNull JNull)
    (mkHostConfig (Some "bridge") (mkRestartPolicy None None) None None None)
    (Some [("80/tcp", Some [mkBinding (Some "0.0.0.0") (Some "8080")])])
    None [] "0123456789ab".

(** The arguments expected in the end-to-end scenario. *)
Definition web_args : list string :=
  ["--name web"; "--restart unless-stopped"; "-p 8080:80/tcp"; "-e TZ=UTC";
   "--label app=web"; "--label app2=web"; "nginx:latest"].

End Ref.

(** ** Strings *)

Lemma append_nil_r (s : string) : s ++ EmptyString = s.
Proof. induction s as [|c s IH]; simpl; [reflexivity | now rewrite IH]. Qed.

Lemma append_assoc (a b c : string) : (a ++ b) ++ c = a ++ (b ++ c).
Proof. induction a as [|x a IH]; simpl; [reflexivity | now rewrite IH]. Qed.

Lemma append_snoc (w : string) (c : ascii) (s : string) :
  (w ++ String c EmptyString) ++ s = w ++ String c s.
Proof. now rewrite append_assoc. Qed.

Lemma length_append (a b : string) :
  String.length (a ++ b) = String.length a + String.length b.
Proof. induction a as [|x a IH]; simpl; [reflexivity | now rewrite IH]. Qed.

Lemma prefix_nil (s : string) : String.prefix EmptyString s = true.
Proof. destruct s; reflexivity. Qed.

Lemma prefix_cons (a b : ascii) (p s : string) :
  String.prefix (String a p) (String b s)
  = if Ascii.eqb a b then String.prefix p s else false.
Proof.
  simpl. destruct (ascii_dec a b) as [->|Hne].
  - now rewrite Ascii.eqb_refl.
  - apply Ascii.eqb_neq in Hne. now rewrite Hne.
Qed.

Lemma prefix_split (p s : string) :
  String.prefix p s = true <-> exists r, s = p ++ r.
Proof.
  revert s. induction p as [|a p IH]; intros s.
  - rewrite prefix_nil. split; [exists s; reflexivity | reflexivity].
  - destruct s as [|b s].
    + simpl. split; [discriminate | intros [r Hr]; discriminate].
    + rewrite prefix_cons. destruct (Ascii.eqb_spec a b) as [->|Hne].
      * rewrite IH. split; intros [r Hr]; exists r.
        -- simpl. now rewrite Hr.
        -- simpl in Hr. congruence.
      * split; [discriminate | intros [r Hr]; simpl in Hr; congruence].
Qed.

Lemma prefix_app (p r : string) : String.prefix p (p ++ r) = true.
Proof. apply prefix_split. now exists r. Qed.

Lemma prefix_weaken (p s t : string) :
  String.prefix p s = true -> String.prefix p (s ++ t) = true.
Proof.
  rewrite !prefix_split. intros [r ->]. exists (r ++ t). apply append_assoc.
Qed.

Lemma drop_app (p r : string) : Py.drop (String.length p) (p ++ r) = r.
Proof. induction p as [|a p IH]; simpl; [now destruct r | exact IH]. Qed.

Lemma replace_from_drop (old new : string) (k : nat) (s : string) :
  Py.replace_from old new k s = Py.replace old new (Py.drop k s).
Proof.
  unfold Py.replace. revert k. induction s as [|c s IH]; intros [|k]; try reflexivity.
  simpl Py.drop. rewrite <- IH. reflexivity.
Qed.

Lemma replace_skip (old new : string) (c : ascii) (s : string) :
  String.prefix old (String c s) = false ->
  Py.replace old new (String c s) = String c (Py.replace old new s).
Proof. unfold Py.replace. cbn [Py.replace_from]. now intros ->. Qed.

Lemma replace_hit (a : ascii) (p new r : string) :
  Py.replace (String a p) new (String a p ++ r)
  = new ++ Py.replace (String a p) new r.
Proof.
  unfold Py.replace at 1. change (String a p ++ r) with (String a (p ++ r)).
  cbn [Py.replace_from].
  change (String a (p ++ r)) with (String a p ++ r).
  rewrite prefix_app, replace_from_drop.
  replace (String.length (String a p) - 1) with (String.length p)
    by (cbn [String.length]; lia).
  now rewrite drop_app.
Qed.

Lemma replace_absent (old new s : string) :
  Py.contains old s = false -> Py.replace old new s = s.
Proof.
  induction s as [|c s IH]; intros H.
  - reflexivity.
  - cbn [Py.contains] in H.
    destruct (String.prefix old (String c s)) eqn:Hp; [discriminate|].
    rewrite replace_skip by exact Hp. now rewrite IH.
Qed.


Lemma prefix_long (p a x : string) :
  String.length p <= String.length a ->
  String.prefix p (a ++ x) = String.prefix p a.
Proof.
  revert a. induction p as [|c p IH]; intros a Hlen.
  - now rewrite !prefix_nil.
  - destruct a as [|d a]; [simpl in Hlen; lia|].
    change (String d a ++ x) with (String d (a ++ x)).
    rewrite !prefix_cons. destruct (Ascii.eqb c d); [|reflexivity].
    apply IH. simpl in Hlen. lia.
Qed.

(** ** The placeholder *)

Lemma placeholder_cons : PLACEHOLDER = String "{" "{name}}".
Proof. reflexivity. Qed.

(** The placeholder does not overlap a shifted copy of itself. *)
Lemma placeholder_unbordered (a b : string) :
  0 < String.length a < 8 ->
  String.prefix PLACEHOLDER (a ++ PLACEHOLDER ++ b) = false.
Proof.
  intros Hlen.
  destruct (String.prefix PLACEHOLDER (a ++ PLACEHOLDER ++ b)) eqn:Hp;
    [|reflexivity].
  apply prefix_split in Hp as [r Hr]. exfalso.
  do 8 (destruct a as [|? a]; [cbn in Hlen, Hr; try lia; congruence|]).
  cbn in Hlen. lia.
Qed.

Lemma render_hit (name r : string) :
  render name (PLACEHOLDER ++ r) = name ++ render name r.
Proof. unfold render. rewrite placeholder_cons. apply replace_hit. Qed.

Lemma render_occurrence_bounded (name : string) (n : nat) :
  forall a b, String.length a <= n ->
    render name (a ++ PLACEHOLDER ++ b) = render name a ++ name ++ render name b.
Proof.
  induction n as [|n IH]; intros a b Hlen.
  - destruct a; [|simpl in Hlen; lia]. cbn [append]. apply render_hit.
  - destruct a as [|c a]; [cbn [append]; apply render_hit|].
    destruct (String.prefix PLACEHOLDER (String c a)) eqn:Hpa.
    + apply prefix_split in Hpa as [a' Ha']. rewrite Ha'.
      rewrite append_assoc, !render_hit, IH, append_assoc; [reflexivity|].
      apply (f_equal String.length) in Ha'. rewrite length_append in Ha'.
      cbn in Ha', Hlen. lia.
    + assert (Hp : String.prefix PLACEHOLDER (String c a ++ PLACEHOLDER ++ b) = false).
      { destruct (Nat.lt_ge_cases (String.length (String c a)) 8) as [Hs|Hl].
        - apply placeholder_unbordered. cbn [String.length] in *. lia.
        - rewrite prefix_long; [exact Hpa | exact Hl]. }
      change (String c a ++ PLACEHOLDER ++ b) with (String c (a ++ PLACEHOLDER ++ b)) in *.
      unfold render in *. rewrite (replace_skip _ _ _ _ Hp), (replace_skip _ _ _ _ Hpa).
      rewrite IH; [reflexivity | simpl in Hlen; lia].
Qed.

(** Every occurrence of the placeholder is replaced. *)
Lemma render_occurrence (name a b : string) :
  render name (a ++ PLACEHOLDER ++ b) = render name a ++ name ++ render name b.
Proof. apply (render_occurrence_bounded name (String.length a)). lia. Qed.

(** A string without the placeholder is left as it is. *)
Lemma render_absent (name s : string) :
  Py.contains PLACEHOLDER s = false -> render name s = s.
Proof. apply replace_absent. Qed.

(** ** Shell quoting *)

Ltac each_char c :=
  destruct c as [[] [] [] [] [] [] [] []]; vm_compute; try reflexivity; try discriminate.

Lemma safe_is_ordinary (c : ascii) :
  Shlex.safe_char c = true -> Posix.classify c = Posix.Ordinary.
Proof. each_char c. Qed.

Lemma squote_only (c : ascii) :
  Posix.classify c = Posix.SQuote -> c = "'"%char.
Proof. each_char c. Qed.

Lemma prefix_squote (c : ascii) (s : string) :
  String.prefix "'" (String c s) = Ascii.eqb "'" c.
Proof. rewrite prefix_cons, prefix_nil. now destruct (Ascii.eqb "'" c). Qed.

(** Unquoted safe characters extend the current word. *)
Lemma words_plain_safe (s w : string) :
  Shlex.all_safe s = true ->
  Posix.words Posix.Plain (Some w) s = Some [w ++ s].
Proof.
  revert w. induction s as [|c s IH]; intros w Hs.
  - cbn. now rewrite append_nil_r.
  - cbn [Shlex.all_safe] in Hs. apply andb_true_iff in Hs as [Hc Hs].
    cbn [Posix.words]. rewrite (safe_is_ordinary c Hc).
    unfold Posix.push. cbn [Py.or_empty]. rewrite IH by exact Hs.
    now rewrite append_snoc.
Qed.

(** Inside single quotes, the escape sequence reads as one single quote. *)
Lemma words_single_escape (w rest : string) :
  Posix.words Posix.Single (Some w) (Shlex.squote_escape ++ rest)
  = Posix.words Posix.Single (Some (w ++ "'")) rest.
Proof. reflexivity. Qed.

(** Inside single quotes, the escaped text reads back as the text. *)
Lemma words_single_escaped (s w : string) :
  Posix.words Posix.Single (Some w)
    (Py.replace "'" Shlex.squote_escape s ++ "'")
  = Some [w ++ s].
Proof.
  revert w. induction s as [|c s IH]; intros w.
  - cbn. now rewrite append_nil_r.
  - destruct (Ascii.eqb_spec "'"%char c) as [<-|Hne].
    + change (String "'" s) with ("'" ++ s). rewrite replace_hit.
      rewrite append_assoc, words_single_escape, IH.
      now rewrite append_snoc.
    + rewrite replace_skip.
      * cbn [append Posix.words].
        destruct (Posix.classify c) eqn:Hc;
          try (unfold Posix.push; cbn [Py.or_empty]; rewrite IH;
               now rewrite append_snoc).
        apply squote_only in Hc. congruence.
      * rewrite prefix_squote. now apply Ascii.eqb_neq.
Qed.

(** ** Dictionaries *)

Lemma dict_mem_get (k : string) (d : Dict.t) :
  Dict.mem k d = true <-> exists v, Dict.get k d = Some v.
Proof.
  unfold Dict.mem. destruct (Dict.get k d) as [v|].
  - split; [now exists v | reflexivity].
  - split; [discriminate | intros [v Hv]; discriminate].
Qed.

Lemma dict_set_absent (k v : string) (d : Dict.t) :
  Dict.mem k d = false -> Dict.set k v d = (d ++ [(k, v)])%list.
Proof.
  unfold Dict.mem. induction d as [|[k' v'] d IH]; intros H.
  - reflexivity.
  - cbn in *. destruct (String.eqb k' k); [discriminate|].
    now rewrite IH.
Qed.

Lemma dict_get_app (k : string) (d1 d2 : Dict.t) :
  Dict.get k (d1 ++ d2)%list
  = match Dict.get k d1 with Some v => Some v | None => Dict.get k d2 end.
Proof.
  induction d1 as [|[k' v'] d1 IH]; [reflexivity|].
  cbn. now destruct (String.eqb k' k).
Qed.

Lemma dict_setdefault_app (k v : string) (d : Dict.t) :
  Dict.setdefault k v d = if Dict.mem k d then d else (d ++ [(k, v)])%list.
Proof.
  unfold Dict.setdefault. destruct (Dict.mem k d) eqn:H; [reflexivity|].
  now apply dict_set_absent.
Qed.

(** Insert-if-absent keeps what a key is bound to. *)
Lemma dict_setdefault_keeps (k k' v v' : string) (d : Dict.t) :
  Dict.get k d = Some v -> Dict.get k (Dict.setdefault k' v' d) = Some v.
Proof.
  intros H. rewrite dict_setdefault_app. destruct (Dict.mem k' d); [exact H|].
  now rewrite dict_get_app, H.
Qed.

(** ** The end-to-end scenario *)

(** C1.  In the end-to-end scenario (container "web", image "nginx:latest",
    port 80/tcp bound to 0.0.0.0:8080, env PATH and TZ, labels maintainer and
    app, no restart policy, network mode "bridge", label addition
    app2={{name}}, restart default "unless-stopped") the argument list of
    [format_command] is exactly [--name web], [--restart unless-stopped],
    [-p 8080:80/tcp], [-e TZ=UTC], [--label app=web], [--label app2=web],
    [nginx:latest], with or without the command tail and also when the
    restart default goes through the caller's policy of [main]: the seven
    arguments come in this order, none mentions PATH or maintainer, and there
    is no [--network] argument.  The rendered text reads back, word by word,
    as [docker run] followed by these arguments. *)
Theorem scenario_web_arguments (include_cmd : bool) :
  format_command_args Ref.web [("app2", "{{name}}")] []
    (Some "unless-stopped") None include_cmd = Ref.web_args
  /\ main_args Ref.web [("app2", "{{name}}")] []
       (Some "unless-stopped") None include_cmd = Ref.web_args
  /\ Ref.subseq
       ["--name web"; "--restart unless-stopped"; "-p 8080:80/tcp";
        "-e TZ=UTC"; "--label app=web"; "--label app2=web"; "nginx:latest"]
       (format_command_args Ref.web [("app2", "{{name}}")] []
          (Some "unless-stopped") None include_cmd) = true
  /\ Ref.none_mentions "PATH"
       (format_command_args Ref.web [("app2", "{{name}}")] []
          (Some "unless-stopped") None include_cmd) = true
  /\ Ref.none_mentions "maintainer"
       (format_command_args Ref.web [("app2", "{{name}}")] []
          (Some "unless-stopped") None include_cmd) = true
  /\ Ref.none_mentions "--network"
       (format_command_args Ref.web [("app2", "{{name}}")] []
          (Some "unless-stopped") None include_cmd) = true
  /\ Posix.tokens
       (format_command Ref.web [("app2", "{{name}}")] []
          (Some "unless-stopped") None include_cmd)
     = Some ["docker"; "run"; "--name"; "web"; "--restart"; "unless-stopped";
             "-p"; "8080:80/tcp"; "-e"; "TZ=UTC"; "--label"; "app=web";
             "--label"; "app2=web"; "nginx:latest"].
Proof. destruct include_cmd; vm_compute; repeat split; reflexivity. Qed.

(** ** The shell-quoting round trip *)

(** C7.  For every string [s] (with spaces, single quotes, backquotes, [$]
    or any other character), the words a POSIX shell reads in
    [shlex.quote(s)] are the one word [s]. *)
Theorem quote_roundtrip (s : string) :
  Posix.tokens (Shlex.quote s) = Some [s].
Proof.
  unfold Posix.tokens, Shlex.quote. destruct s as [|c s]; [reflexivity|].
  destruct (Shlex.all_safe (String c s)) eqn:Hs.
  - cbn [Shlex.all_safe] in Hs. apply andb_true_iff in Hs as [Hc Hs].
    cbn [Posix.words]. rewrite (safe_is_ordinary c Hc).
    unfold Posix.push. cbn [Py.or_empty append].
    now rewrite words_plain_safe.
  - change (Posix.words Posix.Single (Some EmptyString)
              (Py.replace "'" Shlex.squote_escape (String c s) ++ "'")
            = Some [String c s]).
    now rewrite words_single_escaped.
Qed.

(** ** The command tail *)

Lemma as_list_normalized (v : StrOrList) : as_list v = Ref.normalized v.
Proof. destruct v as [|[|c s]|l]; reflexivity. Qed.

Lemma cmd_parts_command_tail (cfg : Config) (include_cmd : bool) :
  cmd_parts cfg include_cmd = Ref.command_tail cfg include_cmd.
Proof.
  unfold cmd_parts, Ref.command_tail. rewrite !as_list_normalized.
  destruct include_cmd; [|reflexivity].
  destruct (Ref.normalized (cfg_Entrypoint cfg)); [|reflexivity].
  now destruct (Ref.normalized (cfg_Cmd cfg)).
Qed.

(** C2, amended.  Without [include_cmd] the argument list ends with the
    image.  With [include_cmd] it is that list followed by the quoted command
    tail: all of cmd when the entrypoint is non-empty, cmd without its first
    element when the entrypoint is empty, nothing when cmd is empty; a
    non-empty string entrypoint or cmd counts as a one-element list, and the
    empty string, like [null], counts as the empty list. *)
Theorem command_tail_after_image (container : Container)
    (labels envs : list KV) (add_restart add_network : option string)
    (include_cmd : bool) :
  (exists head,
     format_command_args container labels envs add_restart add_network false
     = (head ++ [Shlex.quote (image_of container)])%list)
  /\ format_command_args container labels envs add_restart add_network include_cmd
     = (format_command_args container labels envs add_restart add_network false
        ++ map Shlex.quote (Ref.command_tail (c_Config container) include_cmd))%list.
Proof.
  unfold format_command_args.
  rewrite (cmd_parts_command_tail _ include_cmd).
  cbn [cmd_parts map]. rewrite !app_assoc, !app_nil_r. split.
  - eexists. reflexivity.
  - reflexivity.
Qed.

(** C2 as stated fails: with the empty string as entrypoint and cmd
    [prog a], treating the string as a one-element list would emit [prog a]
    after the image; the code emits [a]. *)
Lemma command_tail_empty_string_entrypoint :
  format_command_args Ref.empty_entrypoint [] [] None None true
  = ["--name job"; "alpine"; "a"]
  /\ format_command_args Ref.empty_entrypoint [] [] None None true
     <> (format_command_args Ref.empty_entrypoint [] [] None None false
         ++ map Shlex.quote
              (Ref.tail_wrap_any_string (c_Config Ref.empty_entrypoint) true))%list.
Proof. split; [reflexivity | vm_compute; discriminate]. Qed.

(** ** Restart policy *)

(** C3, amended.  [format_restart_policy] returns the empty string when the
    name is absent or empty, ["on-failure:<count>"] when the name is
    "on-failure" and a retry count other than zero is present, and the bare
    name in every other case; so on-failure with count 3 gives
    "on-failure:3", "always" gives "always" and the empty name gives the
    empty string. *)
Theorem format_restart_policy_cases (name : option string) (retry : option Z) :
  (Py.truthy name = false ->
     format_restart_policy (mkRestartPolicy name retry) = EmptyString)
  /\ (forall count, name = Some "on-failure" -> retry = Some count -> count <> 0%Z ->
        format_restart_policy (mkRestartPolicy name retry)
        = "on-failure:" ++ Py.str_of_int count)
  /\ (Py.truthy name = true ->
      (name <> Some "on-failure" \/ retry = None \/ retry = Some 0%Z) ->
        format_restart_policy (mkRestartPolicy name retry) = Py.or_empty name)
  /\ format_restart_policy (mkRestartPolicy (Some "on-failure") (Some 3%Z))
     = "on-failure:3"
  /\ format_restart_policy (mkRestartPolicy (Some "always") None) = "always"
  /\ format_restart_policy (mkRestartPolicy (Some EmptyString) None) = EmptyString.
Proof.
  unfold format_restart_policy. cbn [rp_Name rp_MaximumRetryCount].
  repeat split; try reflexivity.
  - intros H. destruct name as [n|]; cbn in *; [|reflexivity].
    unfold Py.nonempty. now rewrite H.
  - intros count -> -> Hc. cbn. apply Z.eqb_neq in Hc. now rewrite Hc.
  - intros Ht Hcase. destruct name as [n|]; [|discriminate]. cbn in *.
    unfold Py.nonempty. rewrite Ht. cbn.
    destruct (String.eqb_spec n "on-failure") as [->|Hn]; [|reflexivity].
    destruct Hcase as [H|[->| ->]]; [congruence | reflexivity | reflexivity].
Qed.

Lemma format_restart_policy_cases_witness :
  format_restart_policy (mkRestartPolicy (Some "on-failure") (Some 5%Z))
  = "on-failure:5"
  /\ format_restart_policy (mkRestartPolicy None (Some 5%Z)) = EmptyString
  /\ format_restart_policy (mkRestartPolicy (Some "on-failure") (Some 0%Z))
     = "on-failure".
Proof.
  destruct (format_restart_policy_cases (Some "on-failure") (Some 5%Z))
    as (_ & H1 & _).
  destruct (format_restart_policy_cases None (Some 5%Z)) as (H2 & _).
  destruct (format_restart_policy_cases (Some "on-failure") (Some 0%Z))
    as (_ & _ & H3 & _).
  split; [| split].
  - apply (H1 5%Z); [reflexivity | reflexivity | discriminate].
  - apply H2. reflexivity.
  - apply H3; [reflexivity | right; right; reflexivity].
Defined.

(** C3 as stated fails: with the name "on-failure" and the retry count -1,
    which is not positive, the result is "on-failure:-1" and not the bare
    name. *)
Lemma format_restart_policy_negative_count :
  format_restart_policy (mkRestartPolicy (Some "on-failure") (Some (-1)%Z))
  = "on-failure:-1"
  /\ format_restart_policy (mkRestartPolicy (Some "on-failure") (Some (-1)%Z))
     <> Ref.restart_positive_only
          (mkRestartPolicy (Some "on-failure") (Some (-1)%Z)).
Proof. split; [reflexivity | vm_compute; discriminate]. Qed.

(** ** Mergers *)

Lemma dict_get_setdefault (k k' v' : string) (d : Dict.t) :
  Dict.get k (Dict.setdefault k' v' d)
  = match Dict.get k d with
    | Some v => Some v
    | None => if String.eqb k' k then Some v' else None
    end.
Proof.
  rewrite dict_setdefault_app. unfold Dict.mem.
  destruct (Dict.get k' d) as [w|] eqn:Hk'.
  - destruct (Dict.get k d) eqn:Hk; [reflexivity|].
    destruct (String.eqb_spec k' k) as [->|]; [congruence | reflexivity].
  - rewrite dict_get_app. now destruct (Dict.get k d).
Qed.

Lemma merge_labels_step_setdefault (name : string) (merged : Dict.t) (kv : KV) :
  merge_labels_step name merged kv
  = Dict.setdefault (fst (Ref.rendered_pair name kv))
      (snd (Ref.rendered_pair name kv)) merged.
Proof. destruct kv as [k v]. reflexivity. Qed.

Lemma merge_envs_step_setdefault (name : string) (env_map : Dict.t) (kv : KV) :
  merge_envs_step name env_map kv
  = Dict.setdefault (fst (Ref.rendered_value name kv))
      (snd (Ref.rendered_value name kv)) env_map.
Proof. destruct kv as [k v]. reflexivity. Qed.

Lemma merge_labels_add_missing (existing : Dict.t) (adds : list KV) (name : string) :
  merge_labels existing adds name
  = Ref.add_missing (map (Ref.rendered_pair name) adds) existing.
Proof.
  unfold merge_labels, Ref.add_missing. revert existing.
  induction adds as [|kv adds IH]; intros existing; [reflexivity|].
  cbn [fold_left map]. now rewrite IH, merge_labels_step_setdefault.
Qed.

Lemma merge_envs_map_add_missing (envs : list string) (adds : list KV)
    (name : string) :
  merge_envs_map envs adds name
  = Ref.add_missing (map (Ref.rendered_value name) adds)
      (merge_envs_map envs [] name).
Proof.
  unfold merge_envs_map, Ref.add_missing. cbn [fold_left].
  generalize (fold_left env_map_step envs []).
  induction adds as [|kv adds IH]; intros d; [reflexivity|].
  cbn [fold_left map]. now rewrite IH, merge_envs_step_setdefault.
Qed.

Lemma add_missing_keeps (k v : string) (pairs : list KV) (d : Dict.t) :
  Dict.get k d = Some v -> Dict.get k (Ref.add_missing pairs d) = Some v.
Proof.
  unfold Ref.add_missing. revert d.
  induction pairs as [|[k' v'] pairs IH]; intros d H; [exact H|].
  cbn [fold_left]. apply IH. now apply dict_setdefault_keeps.
Qed.

Lemma add_missing_extends (pairs : list KV) (d : Dict.t) :
  exists d', Ref.add_missing pairs d = (d ++ d')%list.
Proof.
  unfold Ref.add_missing. revert d.
  induction pairs as [|[k v] pairs IH]; intros d.
  - exists []. cbn. now rewrite app_nil_r.
  - cbn [fold_left fst snd]. destruct (IH (Dict.setdefault k v d)) as [d' Hd'].
    rewrite Hd', dict_setdefault_app. destruct (Dict.mem k d).
    + now exists d'.
    + exists ((k, v) :: d'). now rewrite <- app_assoc.
Qed.

(** An item and the key and value it splits into. *)
Lemma split_eq_key_clean (item : string) :
  Py.contains_eq (fst (Py.split_eq item)) = false.
Proof.
  induction item as [|c s IH]; [reflexivity|].
  cbn [Py.split_eq]. destruct (Ascii.eqb c "=") eqn:Hc; [reflexivity|].
  destruct (Py.split_eq s) as [k v]. cbn in *. now rewrite Hc.
Qed.

Lemma contains_eq_item (k v : string) : Py.contains_eq (k ++ "=" ++ v) = true.
Proof.
  induction k as [|c k IH]; [reflexivity|].
  cbn. now destruct (Ascii.eqb c "=").
Qed.

Lemma split_eq_item (k v : string) :
  Py.contains_eq k = false -> Py.split_eq (k ++ "=" ++ v) = (k, v).
Proof.
  induction k as [|c k IH]; intros H; [reflexivity|].
  cbn in *. destruct (Ascii.eqb c "="); [discriminate|].
  now rewrite IH.
Qed.

Lemma env_map_step_get (k : string) (d : Dict.t) (item : string) :
  Dict.get k (env_map_step d item)
  = match Dict.get k d with
    | Some v => Some v
    | None => Ref.env_lookup k [item]
    end.
Proof.
  unfold env_map_step. cbn [Ref.env_lookup].
  destruct (Py.contains_eq item); cbn [negb andb].
  - destruct (Py.split_eq item) as [key value]. cbn [fst snd].
    rewrite dict_get_setdefault. reflexivity.
  - now destruct (Dict.get k d).
Qed.

Lemma env_map_get (k : string) (items : list string) (d : Dict.t) :
  Dict.get k (fold_left env_map_step items d)
  = match Dict.get k d with
    | Some v => Some v
    | None => Ref.env_lookup k items
    end.
Proof.
  revert d. induction items as [|item items IH]; intros d.
  - cbn. now destruct (Dict.get k d).
  - cbn [fold_left]. rewrite IH, env_map_step_get. cbn [Ref.env_lookup].
    destruct (Dict.get k d); [reflexivity|].
    now destruct (Py.contains_eq item && String.eqb (fst (Py.split_eq item)) k).
Qed.

Lemma env_map_clean (items : list string) (d : Dict.t) :
  Ref.clean_keys d -> Ref.clean_keys (fold_left env_map_step items d).
Proof.
  revert d. induction items as [|item items IH]; intros d Hd; [exact Hd|].
  cbn [fold_left]. apply IH. unfold env_map_step.
  destruct (Py.contains_eq item); cbn [negb]; [|exact Hd].
  pose proof (split_eq_key_clean item) as Hk.
  destruct (Py.split_eq item) as [key value]. cbn [fst] in Hk.
  rewrite dict_setdefault_app. destruct (Dict.mem key d); [exact Hd|].
  apply Forall_app. split; [exact Hd|]. now constructor.
Qed.

(** Reading the rendered items back finds what the map binds. *)
Lemma env_lookup_items (k v : string) (d1 d2 : Dict.t) :
  Ref.clean_keys d1 -> Dict.get k d1 = Some v ->
  Ref.env_lookup k (map env_item (d1 ++ d2)%list) = Some v.
Proof.
  induction d1 as [|[k' v'] d1 IH]; intros Hc Hg; [discriminate|].
  inversion Hc as [|? ? Hk' Hc']; subst. cbn [fst] in Hk'.
  cbn [app map Ref.env_lookup Dict.get] in *. unfold env_item at 1 2 3.
  cbn [fst snd]. rewrite contains_eq_item, split_eq_item by exact Hk'.
  cbn [fst snd andb]. destruct (String.eqb k' k); [exact Hg|].
  now apply IH.
Qed.

(** C4.  Whatever the additions and the container name, a key that the
    existing labels bind keeps its value in the result of [merge_labels], and
    a key that the existing env list binds keeps its value (that of its first
    item) in the map and in the items of [merge_envs]; in particular for the
    single addition of that key with another value. *)
Theorem merge_keeps_existing (K v : string) (additions : list KV) (name : string) :
  (forall existing : Dict.t,
     Dict.get K existing = Some v ->
     Dict.get K (merge_labels existing additions name) = Some v)
  /\ (forall existing_envs : list string,
        Ref.env_lookup K existing_envs = Some v ->
        Dict.get K (merge_envs_map existing_envs additions name) = Some v
        /\ Ref.env_lookup K (merge_envs existing_envs additions name) = Some v).
Proof.
  split.
  - intros existing H. rewrite merge_labels_add_missing.
    now apply add_missing_keeps.
  - intros envs H. unfold merge_envs. rewrite merge_envs_map_add_missing.
    assert (Hm : Dict.get K (merge_envs_map envs [] name) = Some v).
    { unfold merge_envs_map. cbn [fold_left]. now rewrite env_map_get. }
    split; [now apply add_missing_keeps|].
    destruct (add_missing_extends (map (Ref.rendered_value name) additions)
                (merge_envs_map envs [] name)) as [d' ->].
    apply env_lookup_items; [|exact Hm].
    unfold merge_envs_map. cbn [fold_left]. apply env_map_clean. constructor.
Qed.

Lemma merge_keeps_existing_witness :
  Dict.get "app" (merge_labels [("app", "web")] [("app", "other")] "web")
  = Some "web"
  /\ Ref.env_lookup "TZ" (merge_envs ["TZ=UTC"; "TZ=CET"] [("TZ", "{{name}}")] "web")
     = Some "UTC".
Proof.
  destruct (merge_keeps_existing "app" "web" [("app", "other")] "web") as [HL _].
  destruct (merge_keeps_existing "TZ" "UTC" [("TZ", "{{name}}")] "web") as [_ HE].
  split.
  - apply HL. reflexivity.
  - apply HE. reflexivity.
Defined.

(** C6, amended.  [merge_labels] inserts, where the key is still missing,
    each addition with the placeholder replaced by the container name in its
    key and in its value; [merge_envs] does so with the placeholder replaced
    in the value only, the key being taken as the operator wrote it.  The
    replacement turns every occurrence of [{{name}}] into the name and leaves
    a string without that exact placeholder, such as [{{Name}}], as it is. *)
Theorem placeholder_substitution (additions : list KV) (name : string) :
  (forall existing : Dict.t,
     merge_labels existing additions name
     = Ref.add_missing (map (Ref.rendered_pair name) additions) existing)
  /\ (forall existing_envs : list string,
        merge_envs existing_envs additions name
        = map env_item
            (Ref.add_missing (map (Ref.rendered_value name) additions)
               (merge_envs_map existing_envs [] name)))
  /\ (forall a b : string,
        render name (a ++ PLACEHOLDER ++ b)
        = render name a ++ name ++ render name b)
  /\ (forall s : string, Py.contains PLACEHOLDER s = false -> render name s = s)
  /\ render name "{{Name}}.{{name}.{name}}" = "{{Name}}.{{name}.{name}}".
Proof.
  split; [|split; [|split; [|split]]].
  - intros existing. apply merge_labels_add_missing.
  - intros envs. unfold merge_envs. now rewrite merge_envs_map_add_missing.
  - intros a b. apply render_occurrence.
  - intros s. apply render_absent.
  - apply render_absent. reflexivity.
Qed.

Lemma placeholder_substitution_witness :
  render "web" "{{Name}}" = "{{Name}}"
  /\ merge_labels [] [("host.{{name}}", "{{name}}.example.com")] "web"
     = [("host.web", "web.example.com")].
Proof.
  destruct (placeholder_substitution
              [("host.{{name}}", "{{name}}.example.com")] "web")
    as (HL & _ & _ & HA & _).
  split.
  - apply HA. reflexivity.
  - rewrite HL. reflexivity.
Defined.

(** C6 as stated fails for [merge_envs]: the placeholder in the key of an
    env addition is not replaced. *)
Lemma merge_envs_key_not_rendered :
  merge_envs [] [("{{name}}_URL", "http://{{name}}")] "web"
  = ["{{name}}_URL=http://web"]
  /\ ~ In "web_URL=http://web"
         (merge_envs [] [("{{name}}_URL", "http://{{name}}")] "web").
Proof.
  split; [reflexivity|]. vm_compute. intros [H|[]]. discriminate.
Qed.

Lemma add_missing_keys (pairs : list KV) (d : Dict.t) (k : string) :
  In k (Dict.keys (Ref.add_missing pairs d)) ->
  In k (Dict.keys d) \/ In k (map fst pairs).
Proof.
  unfold Ref.add_missing. revert d.
  induction pairs as [|[k' v'] pairs IH]; intros d H; [now left|].
  cbn [fold_left fst snd map] in *. apply IH in H as [H|H]; [|now right; right].
  rewrite dict_setdefault_app in H. destruct (Dict.mem k' d); [now left|].
  unfold Dict.keys in H. rewrite map_app in H. apply in_app_iff in H as [H|H].
  - now left.
  - cbn in H. destruct H as [<-|[]]. right. now left.
Qed.

Lemma dict_mem_setdefault (k v : string) (d : Dict.t) :
  Dict.mem k (Dict.setdefault k v d) = true.
Proof.
  unfold Dict.mem at 1. rewrite dict_get_setdefault, String.eqb_refl.
  now destruct (Dict.get k d).
Qed.

Lemma add_missing_mem_keeps (k : string) (pairs : list KV) (d : Dict.t) :
  Dict.mem k d = true -> Dict.mem k (Ref.add_missing pairs d) = true.
Proof.
  rewrite !dict_mem_get. intros [v Hv]. exists v. now apply add_missing_keeps.
Qed.

Lemma add_missing_mem (pairs : list KV) (d : Dict.t) (kv : KV) :
  In kv pairs -> Dict.mem (fst kv) (Ref.add_missing pairs d) = true.
Proof.
  revert d. induction pairs as [|kv' pairs IH]; intros d H; [destruct H|].
  destruct H as [->|H].
  - change (Ref.add_missing (kv :: pairs) d)
      with (Ref.add_missing pairs (Dict.setdefault (fst kv) (snd kv) d)).
    apply add_missing_mem_keeps, dict_mem_setdefault.
  - change (Ref.add_missing (kv' :: pairs) d)
      with (Ref.add_missing pairs (Dict.setdefault (fst kv') (snd kv') d)).
    now apply IH.
Qed.

(** C10.  [merge_envs] takes the key of an env addition as the operator
    wrote it: the existing-key check looks up that literal key, a missing
    key is appended literally with only its value rendered, every addition's
    literal key is bound in the resulting map, and every key of the map is a
    key of the existing env list or the literal key of an addition.  So with
    the existing item [web_X=1] and the container name "web", the addition
    [{{name}}_X=2] is inserted with the placeholder left in its key, where
    the corresponding label addition is skipped. *)
Theorem merge_envs_literal_keys (existing_envs : list string)
    (additions : list KV) (name : string) :
  (forall (env_map : Dict.t) (key raw_value : string),
     merge_envs_step name env_map (key, raw_value)
     = if Dict.mem key env_map then env_map
       else (env_map ++ [(key, render name raw_value)])%list)
  /\ (forall kv, In kv additions ->
        Dict.mem (fst kv) (merge_envs_map existing_envs additions name) = true)
  /\ (forall k, In k (Dict.keys (merge_envs_map existing_envs additions name)) ->
        In k (Dict.keys (merge_envs_map existing_envs [] name))
        \/ In k (map fst additions))
  /\ merge_envs ["web_X=1"] [("{{name}}_X", "2")] "web"
     = ["web_X=1"; "{{name}}_X=2"]
  /\ merge_labels [("web_X", "1")] [("{{name}}_X", "2")] "web"
     = [("web_X", "1")].
Proof.
  split; [|split; [|split; [|split]]].
  - intros env_map key raw_value. cbn [merge_envs_step].
    destruct (Dict.mem key env_map) eqn:Hm; [reflexivity|].
    now apply dict_set_absent.
  - intros kv Hin. rewrite merge_envs_map_add_missing.
    apply (add_missing_mem _ _ (Ref.rendered_value name kv)).
    now apply in_map.
  - intros k Hk. rewrite merge_envs_map_add_missing in Hk.
    apply add_missing_keys in Hk as [Hk|Hk]; [now left|]. right.
    rewrite map_map in Hk. exact Hk.
  - reflexivity.
  - reflexivity.
Qed.

Lemma merge_envs_literal_keys_witness :
  Dict.mem "{{name}}_X" (merge_envs_map ["web_X=1"] [("{{name}}_X", "2")] "web")
  = true.
Proof.
  destruct (merge_envs_literal_keys ["web_X=1"] [("{{name}}_X", "2")] "web")
    as (_ & H & _).
  apply (H ("{{name}}_X", "2")). left. reflexivity.
Defined.

(** ** Ports *)

Lemma binding_arg_port_flag (container_port : string) (binding : Binding) :
  binding_arg container_port binding = Ref.port_flag container_port binding.
Proof.
  unfold binding_arg, Ref.port_flag.
  destruct binding as [ip [[|c port]|]]; cbn [b_HostPort b_HostIp]; try reflexivity.
  destruct ip as [ip|]; [|reflexivity].
  cbn [Py.truthy Py.or_empty negb String.eqb Py.str_in existsb Ref.no_host_ip].
  destruct (String.eqb ip "0.0.0.0"), (String.eqb ip "::"),
    (String.eqb ip EmptyString); cbn [negb andb orb];
    rewrite ?append_assoc; reflexivity.
Qed.

Lemma binding_fold (container_port : string) (bindings : list Binding)
    (st : PortsState) :
  fold_left (ports_binding_step container_port) bindings st
  = fold_left Ref.seen_step
      (somes (map (Ref.port_flag container_port) bindings)) st.
Proof.
  revert st. induction bindings as [|b bs IH]; intros st; [reflexivity|].
  cbn [fold_left map]. rewrite IH. unfold ports_binding_step at 1.
  rewrite binding_arg_port_flag. destruct st as [port_args seen].
  destruct (Ref.port_flag container_port b); reflexivity.
Qed.

Lemma ports_fold (ps : PortSettings) (st : PortsState) :
  fold_left ports_entry_step ps st
  = fold_left Ref.seen_step (Ref.port_flags (Some ps)) st.
Proof.
  revert st. induction ps as [|[cp bindings] ps IH]; intros st; [reflexivity|].
  cbn [fold_left Ref.port_flags flat_map fst snd] in *.
  rewrite fold_left_app, IH. f_equal.
  destruct bindings as [[|b bs]|]; try reflexivity.
  cbn [ports_entry_step]. apply binding_fold.
Qed.

Lemma filter_twice {A : Type} (f g : A -> bool) (l : list A) :
  filter f (filter g l) = filter (fun x => g x && f x) l.
Proof.
  induction l as [|x l IH]; [reflexivity|].
  cbn. destruct (g x); cbn; [destruct (f x)|]; now rewrite IH.
Qed.

Lemma keep_first_filter (p : string -> bool) (l : list string) :
  Ref.keep_first (filter p l) = filter p (Ref.keep_first l).
Proof.
  induction l as [|x l IH]; [reflexivity|].
  cbn [filter Ref.keep_first]. destruct (p x) eqn:Hp.
  - cbn [Ref.keep_first filter]. rewrite IH, !filter_twice.
    f_equal. apply filter_ext. intros y. apply andb_comm.
  - rewrite IH, filter_twice. apply filter_ext. intros y.
    destruct (String.eqb_spec y x) as [->|]; [now rewrite Hp | reflexivity].
Qed.

Lemma str_in_app (x : string) (l1 l2 : list string) :
  Py.str_in x (l1 ++ l2) = Py.str_in x l1 || Py.str_in x l2.
Proof. apply existsb_app. Qed.

(** The loop keeps the first occurrence of every argument not yet seen. *)
Lemma seen_loop_keep_first (l port_args seen : list string) :
  (forall x, Py.str_in x seen = Py.str_in x port_args) ->
  fst (fold_left Ref.seen_step l (port_args, seen))
  = (port_args
     ++ Ref.keep_first (filter (fun x => negb (Py.str_in x port_args)) l))%list.
Proof.
  revert port_args seen. induction l as [|a l IH]; intros port_args seen Hinv.
  - cbn. now rewrite app_nil_r.
  - cbn [fold_left Ref.seen_step filter]. rewrite Hinv.
    destruct (Py.str_in a port_args) eqn:Ha; cbn [negb].
    + now apply IH.
    + rewrite (IH (port_args ++ [a])%list (a :: seen)).
      * rewrite <- app_assoc. cbn [app Ref.keep_first]. do 2 f_equal.
        rewrite <- keep_first_filter, filter_twice. f_equal.
        apply filter_ext. intros y. rewrite str_in_app. cbn.
        now rewrite orb_false_r, negb_orb.
      * intros x. rewrite str_in_app. unfold Py.str_in in *.
        cbn [existsb]. now rewrite Hinv, orb_false_r, orb_comm.
Qed.

Lemma keep_first_in (x : string) (l : list string) :
  In x (Ref.keep_first l) <-> In x l.
Proof.
  induction l as [|a l IH]; [reflexivity|].
  cbn [Ref.keep_first In]. rewrite filter_In, IH.
  destruct (String.eqb_spec x a) as [->|Hne]; cbn.
  - split; intros _; now left.
  - split; intros [H|H]; auto. now right.
Qed.

Lemma keep_first_nodup (l : list string) : NoDup (Ref.keep_first l).
Proof.
  induction l as [|a l IH]; cbn [Ref.keep_first]; constructor.
  - rewrite filter_In, String.eqb_refl. now intros [_ H].
  - now apply NoDup_filter.
Qed.

(** C5.  [collect_ports] returns the [-p] arguments of the ports map, each
    once, at its first occurrence and in first-seen order: a binding yields
    an argument only when its host port is non-empty, the host IP is
    prefixed exactly when it is set and is none of "0.0.0.0", "::" and the
    empty string, container ports without bindings yield nothing, and an
    argument already emitted is not emitted again.  So the result has no
    duplicates, holds exactly the arguments the bindings ask for, and each of
    them occurs once; the IPv4 and IPv6 wildcard bindings of one port give
    one argument. *)
Theorem collect_ports_first_seen (port_settings : option PortSettings) :
  collect_ports port_settings = Ref.keep_first (Ref.port_flags port_settings)
  /\ NoDup (collect_ports port_settings)
  /\ (forall arg, In arg (collect_ports port_settings)
                  <-> In arg (Ref.port_flags port_settings))
  /\ (forall arg, In arg (Ref.port_flags port_settings) ->
                  count_occ string_dec (collect_ports port_settings) arg = 1)
  /\ collect_ports
       (Some [("80/tcp", Some [mkBinding (Some "0.0.0.0") (Some "8080");
                               mkBinding (Some "::") (Some "8080")]);
              ("53/udp", None);
              ("443/tcp", Some [mkBinding (Some "10.0.0.1") (Some "8443");
                                mkBinding None (Some EmptyString)]);
              ("80/tcp", Some [mkBinding None (Some "8080")])])
     = ["-p 8080:80/tcp"; "-p 10.0.0.1:8443:443/tcp"].
Proof.
  assert (E : collect_ports port_settings
              = Ref.keep_first (Ref.port_flags port_settings)).
  { unfold collect_ports. destruct port_settings as [ps|]; [|reflexivity].
    rewrite ports_fold, seen_loop_keep_first by reflexivity.
    cbn [app Py.str_in existsb negb]. f_equal.
    induction (Ref.port_flags (Some ps)) as [|a l IH]; [reflexivity|].
    cbn [filter]. now rewrite IH. }
  rewrite E. split; [reflexivity|]. split; [apply keep_first_nodup|].
  split; [intros arg; apply keep_first_in|]. split; [|reflexivity].
  intros arg Hin. apply NoDup_count_occ'.
  - apply keep_first_nodup.
  - now apply keep_first_in.
Qed.

Lemma collect_ports_first_seen_witness :
  count_occ string_dec
    (collect_ports
       (Some [("80/tcp", Some [mkBinding (Some "0.0.0.0") (Some "8080");
                               mkBinding (Some "::") (Some "8080")])]))
    "-p 8080:80/tcp" = 1.
Proof.
  destruct (collect_ports_first_seen
              (Some [("80/tcp", Some [mkBinding (Some "0.0.0.0") (Some "8080");
                                      mkBinding (Some "::") (Some "8080")])]))
    as (_ & _ & _ & H & _).
  apply H. left. reflexivity.
Defined.

(** ** Operator arguments *)

Lemma parse_kv_loop_find (kind : string) (raw_items : list string)
    (parsed : list KV) :
  parse_kv_loop kind raw_items parsed
  = match find Ref.malformed raw_items with
    | None => Returned (parsed ++ map Ref.kv_of raw_items)%list
    | Some raw => Raised (ValueError (Ref.kv_error kind raw))
    end.
Proof.
  revert parsed. induction raw_items as [|raw rest IH]; intros parsed.
  - cbn. now rewrite app_nil_r.
  - cbn [parse_kv_loop find map]. unfold Ref.malformed at 1, Ref.kv_of.
    destruct (Py.contains_eq raw) eqn:Hc; cbn [negb orb].
    + destruct (Py.split_eq raw) as [key value]. cbn [fst snd].
      unfold Py.nonempty. destruct (String.eqb (Py.strip key) EmptyString);
        cbn [negb].
      * unfold Ref.kv_error. now rewrite Hc.
      * rewrite IH, <- app_assoc. reflexivity.
    + unfold Ref.kv_error. now rewrite Hc.
Qed.

(** C8.  [parse_kv_args] returns the (key, value) pairs of the items in
    input order when no item is malformed, and raises [ValueError], for the
    first malformed item, otherwise; an item is malformed when it has no
    ["="] or when its key, the text before the first ["="] with the blanks
    around it stripped, is empty.  It raises if and only if some item is
    malformed, and it never ends the process. *)
Theorem parse_kv_args_outcome (raw_items : list string) (kind : string) :
  parse_kv_args raw_items kind
  = match find Ref.malformed raw_items with
    | None => Returned (map Ref.kv_of raw_items)
    | Some raw => Raised (ValueError (Ref.kv_error kind raw))
    end
  /\ ((forall raw, In raw raw_items -> Ref.malformed raw = false) ->
      parse_kv_args raw_items kind = Returned (map Ref.kv_of raw_items))
  /\ ((exists msg, parse_kv_args raw_items kind = Raised (ValueError msg))
      <-> (exists raw, In raw raw_items /\ Ref.malformed raw = true))
  /\ (forall code, parse_kv_args raw_items kind <> Exited code).
Proof.
  unfold parse_kv_args. rewrite parse_kv_loop_find. cbn [app].
  destruct (find Ref.malformed raw_items) as [raw|] eqn:Hfind.
  - apply find_some in Hfind as [Hin Hbad].
    split; [reflexivity|]. split; [|split].
    + intros Hall. rewrite (Hall raw Hin) in Hbad. discriminate.
    + split; [intros _; now exists raw | intros _; eexists; reflexivity].
    + discriminate.
  - split; [reflexivity|]. split; [reflexivity|]. split.
    + split; [intros [msg H]; discriminate|].
      intros (raw & Hin & Hbad).
      rewrite (find_none _ _ Hfind raw Hin) in Hbad. discriminate.
    + discriminate.
Qed.

Lemma parse_kv_args_outcome_witness :
  parse_kv_args ["traefik.enable=true"; " TZ =Europe/Amsterdam"] "label"
  = Returned [("traefik.enable", "true"); ("TZ", "Europe/Amsterdam")]
  /\ exists msg, parse_kv_args ["a=b"; "novalue"] "label" = Raised (ValueError msg).
Proof.
  destruct (parse_kv_args_outcome
              ["traefik.enable=true"; " TZ =Europe/Amsterdam"] "label")
    as (_ & H1 & _).
  destruct (parse_kv_args_outcome ["a=b"; "novalue"] "label") as (_ & _ & H2 & _).
  split.
  - apply H1. intros raw [<-|[<-|[]]]; reflexivity.
  - apply H2. exists "novalue". split; [right; left; reflexivity | reflexivity].
Defined.

(** ** The caller's restart default *)

(** The formatted policy is empty exactly when no name is set. *)
Lemma format_restart_policy_nonempty (policy : RestartPolicy) :
  Py.nonempty (format_restart_policy policy) = Py.truthy (rp_Name policy).
Proof.
  unfold format_restart_policy. destruct policy as [[name|] retry];
    cbn [rp_Name rp_MaximumRetryCount Py.or_empty Py.truthy]; [|reflexivity].
  unfold Py.nonempty.
  destruct (String.eqb name EmptyString) eqn:Hn; cbn [negb]; [reflexivity|].
  destruct (String.eqb name "on-failure"); [|now rewrite Hn].
  destruct retry as [retry|]; [|now rewrite Hn].
  destruct (Z.eqb retry 0); cbn [negb]; [now rewrite Hn | reflexivity].
Qed.

Lemma restart_args_in_main_args (container : Container) (labels envs : list KV)
    (add_restart add_network : option string) (include_cmd : bool) (arg : string) :
  In arg (restart_args (c_HostConfig container)
            (restart_override container add_restart)) ->
  In arg (main_args container labels envs add_restart add_network include_cmd).
Proof.
  intros H. unfold main_args, format_command_args.
  apply in_or_app. right. apply in_or_app. right. apply in_or_app. now left.
Qed.

(** C9.  For a non-empty restart default, [main] passes it to
    [format_command] exactly when the container's restart policy has no name
    set, and then [--restart <default>] is among the arguments; when a name
    is set, [main] passes the empty string and the argument is the
    container's own formatted policy.  The test [main] makes on the formatted
    policy agrees with the test on the raw name. *)
Theorem restart_default_gate (container : Container) (labels envs : list KV)
    (default : string) (add_network : option string) (include_cmd : bool) :
  Py.nonempty default = true ->
  (restart_override container (Some default) = Some default
   <-> Ref.has_restart_name container = false)
  /\ (Ref.has_restart_name container = false ->
      restart_args (c_HostConfig container)
        (restart_override container (Some default))
      = ["--restart " ++ Shlex.quote default]
      /\ In ("--restart " ++ Shlex.quote default)
           (main_args container labels envs (Some default) add_network
              include_cmd))
  /\ (Ref.has_restart_name container = true ->
      restart_override container (Some default) = Some EmptyString
      /\ restart_args (c_HostConfig container)
           (restart_override container (Some default))
         = ["--restart " ++ Shlex.quote
              (format_restart_policy (hc_RestartPolicy (c_HostConfig container)))]).
Proof.
  intros Hd. unfold restart_override, restart_args, Ref.has_restart_name.
  rewrite format_restart_policy_nonempty.
  destruct (Py.truthy (rp_Name (hc_RestartPolicy (c_HostConfig container))))
    eqn:Hname; cbn [negb].
  - split; [|split].
    + split; [|discriminate]. intros H. injection H as H.
      rewrite <- H in Hd. discriminate.
    + discriminate.
    + intros _. split; [reflexivity|].
      pose proof (format_restart_policy_nonempty
                    (hc_RestartPolicy (c_HostConfig container))) as Hf.
      rewrite Hname in Hf. cbn [Py.truthy Py.or_empty]. unfold Py.nonempty in Hf.
      now rewrite Hf.
  - assert (Hr : restart_args (c_HostConfig container)
                   (restart_override container (Some default))
                 = ["--restart " ++ Shlex.quote default]).
    { unfold restart_override, restart_args.
      rewrite !format_restart_policy_nonempty, Hname. cbn [negb Py.truthy].
      unfold Py.nonempty in Hd. now rewrite Hd. }
    split; [|split].
    + split; reflexivity.
    + intros _. cbn [Py.truthy]. unfold Py.nonempty in Hd. rewrite Hd.
      split; [reflexivity|].
      apply restart_args_in_main_args. rewrite Hr. now left.
    + discriminate.
Qed.

Lemma restart_default_gate_witness :
  restart_override Ref.web (Some "unless-stopped") = Some "unless-stopped"
  /\ In "--restart unless-stopped"
       (main_args Ref.web [] [] (Some "unless-stopped") None false).
Proof.
  destruct (restart_default_gate Ref.web [] [] "unless-stopped" None false
              eq_refl) as (H1 & H2 & _).
  split.
  - apply H1. reflexivity.
  - apply H2. reflexivity.
Defined.

(** ** Filters *)

Lemma filter_idempotent {A : Type} (p : A -> bool) (l : list A) :
  filter p (filter p l) = filter p l.
Proof.
  induction l as [|x l IH]; [reflexivity|].
  cbn. destruct (p x) eqn:Hp; cbn; [rewrite Hp, IH|]; auto.
Qed.

Lemma keep_env_inv (item : string) :
  keep_env item = true ->
  Py.contains_eq item = true
  /\ Py.str_in (fst (Py.split_eq item)) SYSTEM_ENV_KEYS = false
  /\ Py.startswith "DOCKER_" (fst (Py.split_eq item)) = false.
Proof.
  unfold keep_env. destruct (Py.contains_eq item); cbn [negb]; [|discriminate].
  destruct (Py.split_eq item) as [key value]. cbn [fst].
  destruct (Py.str_in key SYSTEM_ENV_KEYS); cbn [orb]; [discriminate|].
  destruct (Py.startswith "DOCKER_" key); [discriminate|]. auto.
Qed.

(** X1.  Filtering the environment twice is filtering it once, and every
    item it keeps has the form KEY=VALUE with a key that is neither a
    system key nor a [DOCKER_] key. *)
Theorem filter_env_vars_idempotent (env_list : option (list string)) :
  filter_env_vars (Some (filter_env_vars env_list)) = filter_env_vars env_list
  /\ Forall
       (fun item =>
          Py.contains_eq item = true
          /\ Py.str_in (fst (Py.split_eq item)) SYSTEM_ENV_KEYS = false
          /\ Py.startswith "DOCKER_" (fst (Py.split_eq item)) = false)
       (filter_env_vars env_list).
Proof.
  unfold filter_env_vars. split; [apply filter_idempotent|].
  apply Forall_forall. intros item Hin. apply filter_In in Hin as [_ Hk].
  now apply keep_env_inv.
Qed.

Lemma dict_get_filter (k : string) (p : KV -> bool) (d : Dict.t) :
  (forall v w, p (k, v) = p (k, w)) ->
  Dict.get k (filter p d)
  = match Dict.get k d with
    | Some v => if p (k, v) then Some v else None
    | None => None
    end.
Proof.
  intros Hp. induction d as [|[k' v'] d IH]; [reflexivity|].
  cbn [filter Dict.get]. destruct (String.eqb_spec k' k) as [->|Hne].
  - destruct (p (k, v')) eqn:Hk.
    + cbn. now rewrite String.eqb_refl.
    + rewrite IH. destruct (Dict.get k d) as [v|]; [|reflexivity].
      now rewrite (Hp v v'), Hk.
  - destruct (p (k', v')); [|exact IH].
    cbn. apply String.eqb_neq in Hne. now rewrite Hne.
Qed.

(** X2.  Filtering the labels twice is filtering them once; a key that is
    "maintainer" or "build_version" or starts with "org.opencontainers" is
    not bound in the result, and every other key is bound to what it was
    bound to. *)
Theorem filter_labels_frame (labels : option Dict.t) (k : string) :
  filter_labels (Some (filter_labels labels)) = filter_labels labels
  /\ Dict.get k (filter_labels labels)
     = if Py.str_in k IGNORE_LABEL_KEYS || Py.startswith "org.opencontainers" k
       then None
       else Dict.get k (match labels with Some d => d | None => [] end).
Proof.
  unfold filter_labels. split; [apply filter_idempotent|].
  rewrite dict_get_filter by reflexivity.
  unfold keep_label. cbn [fst IGNORE_LABEL_PREFIXES existsb].
  rewrite orb_false_r.
  destruct labels as [d|]; cbn [Dict.get];
    [destruct (Dict.get k d)|];
    destruct (Py.str_in k IGNORE_LABEL_KEYS);
    destruct (Py.startswith "org.opencontainers" k); reflexivity.
Qed.

(** ** Keys of the merged maps *)

Lemma dict_mem_keys (k : string) (d : Dict.t) :
  Dict.mem k d = true <-> In k (Dict.keys d).
Proof.
  unfold Dict.mem, Dict.keys. induction d as [|[k' v'] d IH]; cbn.
  - split; [discriminate | intros []].
  - destruct (String.eqb_spec k' k) as [->|Hne].
    + split; auto.
    + rewrite IH. split; [now right | intros [H|H]; [congruence | exact H]].
Qed.

Lemma setdefault_keys_nodup (k v : string) (d : Dict.t) :
  NoDup (Dict.keys d) -> NoDup (Dict.keys (Dict.setdefault k v d)).
Proof.
  intros Hd. rewrite dict_setdefault_app. destruct (Dict.mem k d) eqn:Hm; [exact Hd|].
  unfold Dict.keys. rewrite map_app. cbn.
  apply NoDup_app; [exact Hd | repeat constructor; intros [] |].
  intros x Hx. intros [<-|[]].
  apply dict_mem_keys in Hx. congruence.
Qed.

Lemma add_missing_keys_nodup (pairs : list KV) (d : Dict.t) :
  NoDup (Dict.keys d) -> NoDup (Dict.keys (Ref.add_missing pairs d)).
Proof.
  unfold Ref.add_missing. revert d.
  induction pairs as [|[k v] pairs IH]; intros d Hd; [exact Hd|].
  cbn [fold_left]. apply IH. now apply setdefault_keys_nodup.
Qed.

Lemma env_map_keys_nodup (items : list string) (d : Dict.t) :
  NoDup (Dict.keys d) -> NoDup (Dict.keys (fold_left env_map_step items d)).
Proof.
  revert d. induction items as [|item items IH]; intros d Hd; [exact Hd|].
  cbn [fold_left]. apply IH. unfold env_map_step.
  destruct (Py.contains_eq item); cbn [negb]; [|exact Hd].
  destruct (Py.split_eq item). now apply setdefault_keys_nodup.
Qed.

Lemma merged_keys_nodup_envs (envs : list string) (additions : list KV)
    (name : string) :
  NoDup (Dict.keys (merge_envs_map envs additions name)).
Proof.
  rewrite merge_envs_map_add_missing.
  apply add_missing_keys_nodup.
  unfold merge_envs_map. cbn [fold_left]. apply env_map_keys_nodup. constructor.
Qed.

(** X3.  No key is handed out twice: the map [merge_envs] renders binds
    every key once, whatever duplicates the existing list and the additions
    hold, so the result has one item per key; and [merge_labels] keeps the
    keys distinct when the existing labels are. *)
Theorem merged_keys_unique (additions : list KV) (name : string) :
  (forall existing_envs : list string,
     NoDup (Dict.keys (merge_envs_map existing_envs additions name))
     /\ length (merge_envs existing_envs additions name)
        = length (Dict.keys (merge_envs_map existing_envs additions name)))
  /\ (forall existing : Dict.t,
        NoDup (Dict.keys existing) ->
        NoDup (Dict.keys (merge_labels existing additions name))).
Proof.
  split.
  - intros envs. split.
    + rewrite merge_envs_map_add_missing. apply add_missing_keys_nodup.
      unfold merge_envs_map. cbn [fold_left]. apply env_map_keys_nodup. constructor.
    + unfold merge_envs, Dict.keys. now rewrite !length_map.
  - intros existing Hd. rewrite merge_labels_add_missing.
    now apply add_missing_keys_nodup.
Qed.

Lemma merged_keys_unique_witness :
  NoDup (Dict.keys (merge_labels [("a", "1")] [("a", "2"); ("b", "3"); ("b", "4")] "web")).
Proof.
  destruct (merged_keys_unique [("a", "2"); ("b", "3"); ("b", "4")] "web") as [_ H].
  apply H. repeat constructor. intros [].
Defined.

(** ** Splitting and joining env items *)

Lemma env_item_split (item : string) :
  Py.contains_eq item = true -> env_item (Py.split_eq item) = item.
Proof.
  unfold env_item. induction item as [|c s IH]; [discriminate|].
  cbn [Py.contains_eq Py.split_eq].
  destruct (Ascii.eqb_spec c "=") as [->|Hne]; [reflexivity|].
  intros H. specialize (IH H). destruct (Py.split_eq s) as [k v].
  cbn [fst snd append] in *. now rewrite IH.
Qed.

Lemma env_map_fresh (items : list string) (d : Dict.t) :
  Forall (fun item => Py.contains_eq item = true) items ->
  NoDup (map (fun item => fst (Py.split_eq item)) items) ->
  (forall item, In item items -> Dict.mem (fst (Py.split_eq item)) d = false) ->
  fold_left env_map_step items d = (d ++ map Py.split_eq items)%list.
Proof.
  revert d. induction items as [|item items IH]; intros d Hwf Hnd Hfresh.
  - cbn. now rewrite app_nil_r.
  - inversion Hwf as [|? ? Hi Hwf']; subst. inversion Hnd as [|? ? Hni Hnd']; subst.
    cbn [fold_left map]. unfold env_map_step at 2. rewrite Hi. cbn [negb].
    pose proof (Hfresh item (or_introl eq_refl)) as Hm.
    destruct (Py.split_eq item) as [key value] eqn:Hs. cbn [fst] in *.
    rewrite dict_setdefault_app, Hm. rewrite IH; auto.
    + now rewrite <- app_assoc.
    + intros it Hit. unfold Dict.mem. rewrite dict_get_app.
      pose proof (Hfresh it (or_intror Hit)) as Hm'. unfold Dict.mem in Hm'.
      destruct (Dict.get (fst (Py.split_eq it)) d); [discriminate|].
      cbn. destruct (String.eqb_spec key (fst (Py.split_eq it))) as [E|]; [|reflexivity].
      exfalso. apply Hni. rewrite E.
      exact (in_map (fun item => fst (Py.split_eq item)) items it Hit).
Qed.

Lemma add_missing_present (pairs : list KV) (d : Dict.t) :
  (forall kv, In kv pairs -> Dict.mem (fst kv) d = true) ->
  Ref.add_missing pairs d = d.
Proof.
  unfold Ref.add_missing. induction pairs as [|kv pairs IH]; intros H; [reflexivity|].
  cbn [fold_left]. unfold Dict.setdefault. rewrite (H kv (or_introl eq_refl)).
  apply IH. intros kv' Hin. apply H. now right.
Qed.

Lemma merge_envs_fixed (existing_envs : list string)
    (additions : list KV) (name : string) :
  Forall (fun item => Py.contains_eq item = true) existing_envs ->
  NoDup (map (fun item => fst (Py.split_eq item)) existing_envs) ->
  (forall kv, In kv additions ->
     In (fst kv) (map (fun item => fst (Py.split_eq item)) existing_envs)) ->
  merge_envs existing_envs additions name = existing_envs.
Proof.
  intros Hwf Hnd Hadds. unfold merge_envs. rewrite merge_envs_map_add_missing.
  assert (Hmap : merge_envs_map existing_envs [] name = map Py.split_eq existing_envs).
  { unfold merge_envs_map. cbn [fold_left]. now rewrite env_map_fresh. }
  rewrite Hmap, add_missing_present.
  - rewrite map_map. rewrite <- (map_id existing_envs) at 2.
    apply map_ext_in. intros item Hin. apply env_item_split.
    now apply (proj1 (Forall_forall _ _) Hwf).
  - intros kv Hin. rewrite in_map_iff in Hin. destruct Hin as (kv0 & <- & Hin0).
    apply dict_mem_keys. unfold Dict.keys. rewrite map_map.
    apply (Hadds kv0 Hin0).
Qed.

(** X4.  An env list of KEY=VALUE items with distinct keys comes back from
    [merge_envs] as it went in when every addition names a key the list
    already has, in particular when there is no addition: splitting the
    items and joining them again loses nothing. *)
Theorem merge_envs_unchanged (existing_envs : list string)
    (additions : list KV) (name : string) :
  Forall (fun item => Py.contains_eq item = true) existing_envs ->
  NoDup (map (fun item => fst (Py.split_eq item)) existing_envs) ->
  (forall kv, In kv additions ->
     In (fst kv) (map (fun item => fst (Py.split_eq item)) existing_envs)) ->
  merge_envs existing_envs additions name = existing_envs.
Proof. apply merge_envs_fixed. Qed.

Lemma merge_envs_unchanged_witness :
  merge_envs ["TZ=UTC"; "URL=http://h/?a=b"] [("TZ", "{{name}}")] "web"
  = ["TZ=UTC"; "URL=http://h/?a=b"].
Proof.
  apply merge_envs_unchanged.
  - repeat constructor.
  - cbn. repeat constructor; cbn; intuition discriminate.
  - intros kv [<-|[]]. cbn. now left.
Defined.

(** ** The caller's gating and the engine's own *)

Lemma restart_override_absorbed (container : Container) (add_restart : option string) :
  restart_args (c_HostConfig container) (restart_override container add_restart)
  = restart_args (c_HostConfig container) add_restart.
Proof.
  unfold restart_args, restart_override.
  now destruct (Py.nonempty
                  (format_restart_policy (hc_RestartPolicy (c_HostConfig container)))).
Qed.

Lemma network_override_absorbed (container : Container) (add_network : option string) :
  network_args (c_HostConfig container) (network_override container add_network)
  = network_args (c_HostConfig container) add_network.
Proof.
  unfold network_args, network_override.
  destruct (hc_NetworkMode (c_HostConfig container)) as [mode|]; [|reflexivity].
  cbn [Py.truthy Py.or_empty Py.str_in existsb].
  destruct (String.eqb mode EmptyString), (String.eqb mode "bridge"),
    (String.eqb mode "default"); reflexivity.
Qed.

(** X5.  The restart and network gating [main] applies before it calls
    [format_command] changes nothing: the engine, given the operator's
    values as they are, builds the same arguments and the same block. *)
Theorem main_gating_absorbed (container : Container) (label_pairs env_pairs : list KV)
    (add_restart add_network : option string) (include_cmd : bool) :
  main_args container label_pairs env_pairs add_restart add_network include_cmd
  = format_command_args container label_pairs env_pairs add_restart add_network
      include_cmd
  /\ main_block container label_pairs env_pairs add_restart add_network include_cmd
     = (c_name container,
        render_container_block container label_pairs env_pairs add_restart
          add_network include_cmd).
Proof.
  assert (E : main_args container label_pairs env_pairs add_restart add_network
                include_cmd
              = format_command_args container label_pairs env_pairs add_restart
                  add_network include_cmd).
  { unfold main_args, format_command_args.
    now rewrite restart_override_absorbed, network_override_absorbed. }
  split; [exact E|].
  unfold main_block, render_container_block, format_command.
  unfold main_args in E. now rewrite E.
Qed.

(** X6.  For a non-empty network default, [main] passes it on exactly when
    the container's network mode is unset, empty, "bridge" or "default", and
    the single [--network] argument then names the default; a container on
    any other network keeps its own, whatever the default. *)
Theorem network_default_gate (container : Container) (default : string) :
  Py.nonempty default = true ->
  (network_override container (Some default) = Some default
   <-> (match hc_NetworkMode (c_HostConfig container) with
        | None => true
        | Some mode => Py.str_in mode [EmptyString; "bridge"; "default"]
        end) = true)
  /\ network_args (c_HostConfig container) (network_override container (Some default))
     = match hc_NetworkMode (c_HostConfig container) with
       | None => ["--network " ++ Shlex.quote default]
       | Some mode =>
           if Py.str_in mode [EmptyString; "bridge"; "default"]
           then ["--network " ++ Shlex.quote default]
           else ["--network " ++ Shlex.quote mode]
       end.
Proof.
  intros Hd. unfold Py.nonempty in Hd.
  rewrite network_override_absorbed. unfold network_override, network_args.
  destruct (hc_NetworkMode (c_HostConfig container)) as [mode|];
    cbn [Py.truthy Py.or_empty Py.str_in existsb andb].
  - destruct (String.eqb mode EmptyString), (String.eqb mode "bridge"),
      (String.eqb mode "default"); cbn [negb orb andb]; rewrite ?Hd; cbn [negb];
      (split; [split; [reflexivity || discriminate | reflexivity || discriminate]
              | reflexivity]).
  - rewrite Hd. cbn [negb]. split; [split; reflexivity | reflexivity].
Qed.

Lemma network_default_gate_witness :
  network_args (c_HostConfig Ref.web) (network_override Ref.web (Some "home"))
  = ["--network home"].
Proof.
  destruct (network_default_gate Ref.web "home" eq_refl) as [_ H].
  rewrite H. reflexivity.
Defined.

(** ** Stripping *)

Lemma space_len_le (s : string) : Py.space_len s <= String.length s.
Proof.
  destruct s as [|a [|b [|c s]]]; unfold Py.space_len; cbn [String.length];
    repeat match goal with
           | |- context [if ?b then _ else _] => destruct b
           end; lia.
Qed.

(** A whitespace character at the head of a string stays one when text is
    appended. *)
Lemma space_len_app (p q : string) :
  Py.space_len p <> 0 -> Py.space_len (p ++ q) = Py.space_len p.
Proof.
  destruct p as [|a [|b [|c p]]]; unfold Py.space_len; cbn [append];
    repeat match goal with
           | |- context [if ?b then _ else _] => destruct b
           end; try congruence; try reflexivity;
    destruct q as [|d [|e q]]; cbn [append];
    repeat match goal with
           | |- context [if ?b then _ else _] => destruct b eqn:?
           end; congruence.
Qed.

Lemma lstrip_from_drop (k : nat) (s : string) :
  Py.lstrip_from k s = Py.lstrip (Py.drop k s).
Proof.
  unfold Py.lstrip. revert k. induction s as [|c s IH]; intros [|k]; try reflexivity.
  cbn [Py.lstrip_from Py.drop]. apply IH.
Qed.

Lemma lstrip_unfold (s : string) :
  Py.lstrip s
  = match Py.space_len s with
    | O => s
    | S k => Py.lstrip (Py.drop (S k) s)
    end.
Proof.
  destruct s as [|c s]; [reflexivity|].
  unfold Py.lstrip at 1. cbn [Py.lstrip_from].
  destruct (Py.space_len (String c s)); [reflexivity|].
  now rewrite lstrip_from_drop.
Qed.

Lemma space_len_lstrip_from (k : nat) (s : string) :
  Py.space_len (Py.lstrip_from k s) = 0.
Proof.
  revert k. induction s as [|c s IH]; intros k; [reflexivity|].
  cbn [Py.lstrip_from]. destruct k as [|k]; [|apply IH].
  destruct (Py.space_len (String c s)) eqn:E; [exact E | apply IH].
Qed.

Lemma lstrip_fixed (s : string) : Py.space_len s = 0 -> Py.lstrip s = s.
Proof. intros H. now rewrite lstrip_unfold, H. Qed.

Lemma lstrip_from_suffix (k : nat) (s : string) :
  exists p, s = p ++ Py.lstrip_from k s.
Proof.
  revert k. induction s as [|c s IH]; intros k; [now exists EmptyString|].
  cbn [Py.lstrip_from]. destruct k as [|k].
  - destruct (Py.space_len (String c s)); [now exists EmptyString|].
    destruct (IH n) as [p Hp]. exists (String c p). cbn. now rewrite <- Hp.
  - destruct (IH k) as [p Hp]. exists (String c p). cbn. now rewrite <- Hp.
Qed.

Lemma drop_app_le (n : nat) (a b : string) :
  n <= String.length a -> Py.drop n (a ++ b) = Py.drop n a ++ b.
Proof.
  revert a. induction n as [|n IH]; intros a H; [reflexivity|].
  destruct a as [|c a]; [cbn in H; lia|]. cbn. apply IH. cbn in H. lia.
Qed.

Lemma length_drop (n : nat) (a : string) :
  String.length (Py.drop n a) = String.length a - n.
Proof.
  revert a. induction n as [|n IH]; intros a; [cbn; lia|].
  destruct a as [|c a]; [reflexivity|]. cbn. apply IH.
Qed.

(** Whitespace in front of a text is stripped with it. *)
Lemma lstrip_all_space_app (a b : string) :
  Py.lstrip a = EmptyString -> Py.lstrip (a ++ b) = Py.lstrip b.
Proof.
  remember (String.length a) as n eqn:Hn. revert a Hn.
  induction n as [n IH] using lt_wf_ind. intros a Hn Ha.
  destruct a as [|c a]; [reflexivity|].
  rewrite lstrip_unfold in Ha.
  destruct (Py.space_len (String c a)) as [|k] eqn:E; [discriminate|].
  rewrite lstrip_unfold, space_len_app, E by congruence.
  pose proof (space_len_le (String c a)) as Hle. rewrite E in Hle.
  rewrite drop_app_le by exact Hle.
  apply (IH (String.length (Py.drop (S k) (String c a)))); [|reflexivity|exact Ha].
  rewrite length_drop. subst n. cbn [String.length] in *. lia.
Qed.

Lemma rstrip_unfold (c : ascii) (s : string) :
  Py.rstrip (String c s)
  = if Py.all_space (String c s) then EmptyString else String c (Py.rstrip s).
Proof. reflexivity. Qed.

(** What [rstrip] removes is whitespace at the end. *)
Lemma rstrip_split (s : string) :
  exists q, s = Py.rstrip s ++ q /\ Py.lstrip q = EmptyString.
Proof.
  induction s as [|c s (q & Hq & Hs)]; [now exists EmptyString|].
  rewrite rstrip_unfold. destruct (Py.all_space (String c s)) eqn:E.
  - exists (String c s). split; [reflexivity|]. now apply String.eqb_eq.
  - exists q. split; [|exact Hs]. cbn. now rewrite <- Hq.
Qed.

Lemma rstrip_idempotent (s : string) : Py.rstrip (Py.rstrip s) = Py.rstrip s.
Proof.
  induction s as [|c s IH]; [reflexivity|].
  rewrite rstrip_unfold. destruct (Py.all_space (String c s)) eqn:E; [reflexivity|].
  rewrite rstrip_unfold, IH.
  destruct (Py.all_space (String c (Py.rstrip s))) eqn:E'; [|reflexivity].
  exfalso. destruct (rstrip_split s) as (q & Hq & Hs).
  apply String.eqb_eq in E'. unfold Py.all_space in E.
  rewrite Hq in E.
  change (String c (Py.rstrip s ++ q)) with (String c (Py.rstrip s) ++ q) in E.
  rewrite (lstrip_all_space_app _ q E'), Hs in E. discriminate.
Qed.

Lemma space_len_rstrip (s : string) :
  Py.space_len s = 0 -> Py.space_len (Py.rstrip s) = 0.
Proof.
  intros H. destruct (rstrip_split s) as (q & Hq & _).
  destruct (Py.space_len (Py.rstrip s)) eqn:E; [reflexivity|].
  rewrite Hq, space_len_app in H; congruence.
Qed.

Lemma strip_idempotent (s : string) : Py.strip (Py.strip s) = Py.strip s.
Proof.
  unfold Py.strip. rewrite (lstrip_fixed (Py.rstrip (Py.lstrip s))).
  - apply rstrip_idempotent.
  - apply space_len_rstrip, space_len_lstrip_from.
Qed.

Lemma contains_eq_app (a b : string) :
  Py.contains_eq (a ++ b) = Py.contains_eq a || Py.contains_eq b.
Proof.
  induction a as [|c a IH]; [reflexivity|].
  cbn. now destruct (Ascii.eqb c "=").
Qed.

Lemma contains_eq_lstrip (s : string) :
  Py.contains_eq s = false -> Py.contains_eq (Py.lstrip s) = false.
Proof.
  intros H. destruct (lstrip_from_suffix 0 s) as [p Hp].
  rewrite Hp, contains_eq_app in H. now apply orb_false_iff in H.
Qed.

Lemma contains_eq_rstrip (s : string) :
  Py.contains_eq s = false -> Py.contains_eq (Py.rstrip s) = false.
Proof.
  intros H. destruct (rstrip_split s) as (q & Hq & _).
  rewrite Hq, contains_eq_app in H. now apply orb_false_iff in H.
Qed.

Lemma kv_of_clean (raw : string) :
  Ref.malformed raw = false -> Ref.clean_key (fst (Ref.kv_of raw)) = true.
Proof.
  unfold Ref.malformed, Ref.clean_key. intros H.
  apply orb_false_iff in H as [_ Hne]. rewrite Hne. cbn [negb andb].
  unfold Ref.kv_of. cbn [fst]. rewrite strip_idempotent, String.eqb_refl.
  unfold Py.strip. rewrite contains_eq_rstrip; [reflexivity|].
  apply contains_eq_lstrip, split_eq_key_clean.
Qed.

Lemma kv_of_item (kv : KV) :
  Ref.clean_key (fst kv) = true ->
  Ref.malformed (env_item kv) = false /\ Ref.kv_of (env_item kv) = kv.
Proof.
  destruct kv as [k v]. unfold Ref.clean_key, Ref.malformed, Ref.kv_of, env_item.
  cbn [fst snd]. intros H.
  apply andb_true_iff in H as [H Hs]. apply andb_true_iff in H as [Hne Hc].
  apply negb_true_iff in Hne, Hc. apply String.eqb_eq in Hs.
  rewrite contains_eq_item, split_eq_item by exact Hc. cbn [fst snd negb orb].
  now rewrite Hs, Hne.
Qed.

(** X7.  Every key [parse_kv_args] returns is non-empty, holds no ["="] and
    has no blanks around it, and the values are the texts after the first
    ["="], untouched; conversely the items KEY=VALUE built from pairs with
    such keys parse back to those pairs. *)
Theorem parse_kv_args_keys (kind : string) (pairs : list KV) :
  (forall raw_items,
     parse_kv_args raw_items kind = Returned pairs ->
     Forall (fun kv => Ref.clean_key (fst kv) = true) pairs
     /\ map snd pairs = map (fun raw => snd (Py.split_eq raw)) raw_items)
  /\ (Forall (fun kv => Ref.clean_key (fst kv) = true) pairs ->
      parse_kv_args (map env_item pairs) kind = Returned pairs).
Proof.
  unfold parse_kv_args. split.
  - intros raw_items H. rewrite parse_kv_loop_find in H.
    destruct (find Ref.malformed raw_items) eqn:Hfind; [discriminate|].
    cbn [app] in H. injection H as <-. split.
    + apply Forall_forall. intros kv Hin. apply in_map_iff in Hin as (raw & <- & Hin).
      apply kv_of_clean. exact (find_none _ _ Hfind raw Hin).
    + now rewrite map_map.
  - intros Hclean. rewrite parse_kv_loop_find. cbn [app].
    assert (Hnone : find Ref.malformed (map env_item pairs) = None).
    { induction pairs as [|kv pairs IH]; [reflexivity|].
      inversion Hclean as [|? ? Hk Hrest]; subst. cbn [map find].
      rewrite (proj1 (kv_of_item kv Hk)). now apply IH. }
    rewrite Hnone, map_map. f_equal. rewrite <- (map_id pairs) at 2.
    apply map_ext_in. intros kv Hin. apply kv_of_item.
    now apply (proj1 (Forall_forall _ _) Hclean).
Qed.

Lemma parse_kv_args_keys_witness :
  parse_kv_args (map env_item [("TZ", " a=b "); ("x.y", EmptyString)]) "label"
  = Returned [("TZ", " a=b "); ("x.y", EmptyString)]
  /\ Forall (fun kv => Ref.clean_key (fst kv) = true) [("k", "v=w")].
Proof.
  destruct (parse_kv_args_keys "label" [("TZ", " a=b "); ("x.y", EmptyString)])
    as [_ H2].
  destruct (parse_kv_args_keys "label" [("k", "v=w")]) as [H1 _].
  split.
  - apply H2. repeat constructor.
  - apply (H1 ["  k =v=w"]). reflexivity.
Defined.

(** ** Merging twice *)

Lemma add_missing_clean (pairs : list KV) (d : Dict.t) :
  Ref.clean_keys pairs -> Ref.clean_keys d -> Ref.clean_keys (Ref.add_missing pairs d).
Proof.
  unfold Ref.add_missing. revert d.
  induction pairs as [|[k v] pairs IH]; intros d Hp Hd; [exact Hd|].
  inversion Hp as [|? ? Hk Hp']; subst. cbn [fold_left fst snd]. apply IH; [exact Hp'|].
  rewrite dict_setdefault_app. destruct (Dict.mem k d); [exact Hd|].
  apply Forall_app. split; [exact Hd | now constructor].
Qed.

Lemma merge_envs_map_clean (envs : list string) (additions : list KV) (name : string) :
  Ref.clean_keys additions -> Ref.clean_keys (merge_envs_map envs additions name).
Proof.
  intros Ha. rewrite merge_envs_map_add_missing. apply add_missing_clean.
  - unfold Ref.clean_keys in *. rewrite Forall_map.
    apply (Forall_impl _ (fun _ H => H) Ha).
  - unfold merge_envs_map. cbn [fold_left]. apply env_map_clean. constructor.
Qed.

Lemma split_rendered_items (d : Dict.t) :
  Ref.clean_keys d -> map Py.split_eq (map env_item d) = d.
Proof.
  induction 1 as [|[k v] d Hk Hd IH]; [reflexivity|].
  cbn [map]. rewrite IH. unfold env_item at 1. cbn [fst snd] in *.
  now rewrite split_eq_item.
Qed.

(** X8.  Merging the same additions a second time changes nothing: for
    labels always, and for env lists when no addition key holds ["="] (as
    is the case for the keys [parse_kv_args] returns).  The items of
    [merge_envs] then split back into exactly the map they were rendered
    from. *)
Theorem merge_idempotent (additions : list KV) (name : string) :
  (forall existing : Dict.t,
     merge_labels (merge_labels existing additions name) additions name
     = merge_labels existing additions name)
  /\ (Forall (fun kv : KV => Py.contains_eq (fst kv) = false) additions ->
      forall existing_envs : list string,
        map Py.split_eq (merge_envs existing_envs additions name)
        = merge_envs_map existing_envs additions name
        /\ merge_envs (merge_envs existing_envs additions name) additions name
           = merge_envs existing_envs additions name).
Proof.
  split.
  - intros existing.
    rewrite (merge_labels_add_missing (merge_labels existing additions name)).
    apply add_missing_present. intros kv Hin.
    rewrite merge_labels_add_missing. now apply add_missing_mem.
  - intros Ha envs.
    pose proof (merge_envs_map_clean envs additions name Ha) as Hclean.
    assert (Hsplit : map Py.split_eq (merge_envs envs additions name)
                     = merge_envs_map envs additions name).
    { unfold merge_envs. now apply split_rendered_items. }
    split; [exact Hsplit|].
    apply merge_envs_fixed.
    + unfold merge_envs. rewrite Forall_map. apply Forall_forall.
      intros kv _. apply contains_eq_item.
    + rewrite <- (map_map Py.split_eq fst), Hsplit.
      apply merged_keys_nodup_envs.
    + intros kv Hin. rewrite <- (map_map Py.split_eq fst), Hsplit.
      apply dict_mem_keys. rewrite merge_envs_map_add_missing.
      apply (add_missing_mem _ _ (Ref.rendered_value name kv)). now apply in_map.
Qed.

Lemma merge_idempotent_witness :
  merge_envs (merge_envs ["A=1"; "A=2"] [("B", "{{name}}")] "web")
    [("B", "{{name}}")] "web"
  = merge_envs ["A=1"; "A=2"] [("B", "{{name}}")] "web".
Proof.
  destruct (merge_idempotent [("B", "{{name}}")] "web") as [_ H].
  apply H. repeat constructor.
Defined.

(** ** Reading the rendered command back *)

Lemma join_continued (head : string) (args : list string) :
  Py.join CONTINUATION (head :: map (fun arg => "  " ++ arg) args)
  = head ++ Ref.continued args.
Proof.
  revert head. induction args as [|a args IH]; intros head.
  - cbn. now rewrite append_nil_r.
  - cbn [map Ref.continued]. change (Py.join CONTINUATION (head :: ("  " ++ a) :: ?l))
      with (head ++ CONTINUATION ++ Py.join CONTINUATION (("  " ++ a) :: l)).
    rewrite IH. now rewrite !append_assoc.
Qed.

(** Safe characters extend the current word, whatever follows. *)
Lemma words_plain_safe_then (s w rest : string) :
  Shlex.all_safe s = true ->
  Posix.words Posix.Plain (Some w) (s ++ rest)
  = Posix.words Posix.Plain (Some (w ++ s)) rest.
Proof.
  revert w. induction s as [|c s IH]; intros w Hs.
  - cbn. now rewrite append_nil_r.
  - cbn [Shlex.all_safe] in Hs. apply andb_true_iff in Hs as [Hc Hs].
    cbn [append Posix.words]. rewrite (safe_is_ordinary c Hc).
    unfold Posix.push. cbn [Py.or_empty]. rewrite IH by exact Hs.
    now rewrite append_snoc.
Qed.

Lemma words_single_escaped_then (s w rest : string) :
  Posix.words Posix.Single (Some w)
    (Py.replace "'" Shlex.squote_escape s ++ "'" ++ rest)
  = Posix.words Posix.Plain (Some (w ++ s)) rest.
Proof.
  revert w. induction s as [|c s IH]; intros w.
  - cbn. now rewrite append_nil_r.
  - destruct (Ascii.eqb_spec "'"%char c) as [<-|Hne].
    + change (String "'" s) with ("'" ++ s). rewrite replace_hit.
      rewrite append_assoc, words_single_escape, IH.
      now rewrite append_snoc.
    + rewrite replace_skip.
      * cbn [append Posix.words].
        destruct (Posix.classify c) eqn:Hc;
          try (unfold Posix.push; cbn [Py.or_empty]; rewrite IH;
               now rewrite append_snoc).
        apply squote_only in Hc. congruence.
      * rewrite prefix_squote. now apply Ascii.eqb_neq.
Qed.

(** A quoted value at the start of a word reads as the value. *)
Lemma words_quote_then (v rest : string) :
  Posix.words Posix.Plain None (Shlex.quote v ++ rest)
  = Posix.words Posix.Plain (Some v) rest.
Proof.
  unfold Shlex.quote. destruct v as [|c v]; [reflexivity|].
  destruct (Shlex.all_safe (String c v)) eqn:Hs.
  - cbn [Shlex.all_safe] in Hs. apply andb_true_iff in Hs as [Hc Hs].
    cbn [append Posix.words]. rewrite (safe_is_ordinary c Hc).
    unfold Posix.push. cbn [Py.or_empty append].
    now rewrite words_plain_safe_then.
  - rewrite !append_assoc.
    change (Posix.words Posix.Single (Some EmptyString)
              (Py.replace "'" Shlex.squote_escape (String c v) ++ "'" ++ rest)
            = Posix.words Posix.Plain (Some (String c v)) rest).
    now rewrite words_single_escaped_then.
Qed.

Lemma close_none (r : option (list string)) : Posix.close None r = r.
Proof. now destruct r. Qed.

Lemma words_continuation (w rest : string) :
  Posix.words Posix.Plain (Some w) (CONTINUATION ++ "  " ++ rest)
  = Posix.close (Some w) (Posix.words Posix.Plain None rest).
Proof. cbn. now destruct (Posix.words Posix.Plain None rest). Qed.

Lemma flag_safe (flag : string) :
  Py.str_in flag Ref.FLAGS = true ->
  Shlex.all_safe flag = true /\ flag <> EmptyString.
Proof.
  intros H. apply existsb_exists in H as (f & Hin & Heq).
  apply String.eqb_eq in Heq. subst f.
  repeat (destruct Hin as [<-|Hin]; [split; [reflexivity | discriminate]|]).
  destruct Hin.
Qed.

Lemma words_flag_then (flag rest : string) :
  Py.str_in flag Ref.FLAGS = true ->
  Posix.words Posix.Plain None (flag ++ " " ++ rest)
  = Posix.close (Some flag) (Posix.words Posix.Plain None rest).
Proof.
  intros H. apply flag_safe in H as [Hs Hne].
  destruct flag as [|c f]; [congruence|].
  cbn [Shlex.all_safe] in Hs. apply andb_true_iff in Hs as [Hc Hs].
  cbn [append Posix.words]. rewrite (safe_is_ordinary c Hc).
  unfold Posix.push. cbn [Py.or_empty append].
  rewrite words_plain_safe_then by exact Hs. reflexivity.
Qed.

(** The continued arguments read as their words, one argument after the
    other, after the word being read. *)
Lemma words_continued (fin : string) (l : list Ref.Arg) :
  (forall w, Posix.words Posix.Plain (Some w) fin = Some [w]) ->
  forallb Ref.known_arg l = true ->
  forall w,
    Posix.words Posix.Plain (Some w) (Ref.continued (map Ref.arg_text l) ++ fin)
    = Some (w :: flat_map Ref.arg_words l).
Proof.
  intros Hfin. induction l as [|a l IH]; intros Hk w.
  - cbn. apply Hfin.
  - cbn [forallb] in Hk. apply andb_true_iff in Hk as [Ha Hk].
    cbn [map Ref.continued flat_map]. rewrite !append_assoc, words_continuation.
    destruct a as [flag value|value]; cbn [Ref.arg_text Ref.arg_words Ref.known_arg] in *.
    + rewrite !append_assoc, words_flag_then by exact Ha.
      rewrite words_quote_then, IH by exact Hk. reflexivity.
    + rewrite words_quote_then, IH by exact Hk. reflexivity.
Qed.

Lemma shaped_list (args : list string) :
  Forall Ref.shaped args ->
  exists l, args = map Ref.arg_text l /\ forallb Ref.known_arg l = true.
Proof.
  induction 1 as [|text args (a & Ha & ->) _ (l & -> & Hl)].
  - now exists [].
  - exists (a :: l). cbn. now rewrite Ha, Hl.
Qed.

Lemma shaped_flag (flag value : string) :
  Py.str_in flag Ref.FLAGS = true -> Ref.shaped (flag ++ " " ++ Shlex.quote value).
Proof. intros H. now exists (Ref.Flag flag value). Qed.

Lemma shaped_somes {A : Type} (f : A -> option string) (l : list A) :
  (forall x text, f x = Some text -> Ref.shaped text) ->
  Forall Ref.shaped (somes (map f l)).
Proof.
  intros Hf. induction l as [|x l IH]; [constructor|].
  cbn [map somes]. destruct (f x) as [text|] eqn:E; [|exact IH].
  constructor; [now apply (Hf x) | exact IH].
Qed.

Lemma port_flag_shaped (container_port : string) (binding : Binding) (text : string) :
  Ref.port_flag container_port binding = Some text -> Ref.shaped text.
Proof.
  unfold Ref.port_flag. remember Shlex.quote as q eqn:Hq.
  destruct (b_HostPort binding) as [[|c port]|]; try discriminate.
  destruct (b_HostIp binding) as [ip|];
    [destruct (Ref.no_host_ip (Some ip))|];
    intros H; injection H as <-; subst q;
    exact (shaped_flag "-p" _ eq_refl).
Qed.

Lemma port_flags_shaped (port_settings : option PortSettings) :
  Forall Ref.shaped (Ref.port_flags port_settings).
Proof.
  unfold Ref.port_flags. destruct port_settings as [ps|]; [|constructor].
  induction ps as [|[cp bindings] ps IH]; [constructor|].
  cbn [flat_map fst snd]. apply Forall_app. split; [|exact IH].
  destruct bindings as [bs|]; [|constructor].
  apply shaped_somes. intros b text. apply port_flag_shaped.
Qed.

Lemma collect_ports_keep_first (port_settings : option PortSettings) :
  collect_ports port_settings = Ref.keep_first (Ref.port_flags port_settings).
Proof.
  unfold collect_ports. destruct port_settings as [ps|]; [|reflexivity].
  rewrite ports_fold, seen_loop_keep_first by reflexivity.
  cbn [app Py.str_in existsb negb]. f_equal.
  induction (Ref.port_flags (Some ps)) as [|a l IH]; [reflexivity|].
  cbn [filter]. now rewrite IH.
Qed.

Lemma collect_ports_shaped (port_settings : option PortSettings) :
  Forall Ref.shaped (collect_ports port_settings).
Proof.
  rewrite collect_ports_keep_first. apply Forall_forall. intros text Hin.
  apply (proj1 (keep_first_in _ _)) in Hin.
  exact (proj1 (Forall_forall _ _) (port_flags_shaped port_settings) text Hin).
Qed.

Lemma mount_arg_shaped (mount : Mount) (text : string) :
  mount_arg mount = Some text -> Ref.shaped text.
Proof.
  unfold mount_arg. remember Shlex.quote as q eqn:Hq.
  destruct (negb (Py.truthy (m_Destination mount))); [discriminate|].
  destruct (m_Type mount) as [mount_type|]; [|discriminate].
  destruct (String.eqb mount_type "bind").
  - destruct (negb (Py.truthy (m_Source mount))); [discriminate|].
    intros H. injection H as <-. subst q. exact (shaped_flag "-v" _ eq_refl).
  - destruct (String.eqb mount_type "volume"); [|discriminate].
    destruct (negb (Py.truthy _)); [discriminate|].
    intros H. injection H as <-. subst q. exact (shaped_flag "-v" _ eq_refl).
Qed.

Lemma device_arg_shaped (device : Device) (text : string) :
  device_arg device = Some text -> Ref.shaped text.
Proof.
  unfold device_arg. remember Shlex.quote as q eqn:Hq.
  destruct (_ || _); [discriminate|].
  intros H. injection H as <-. subst q. exact (shaped_flag "--device" _ eq_refl).
Qed.

Lemma shaped_map {A : Type} (f : A -> string) (l : list A) :
  (forall x, Ref.shaped (f x)) -> Forall Ref.shaped (map f l).
Proof. intros Hf. rewrite Forall_map. apply Forall_forall. intros x _. apply Hf. Qed.

Lemma format_command_args_shaped (container : Container)
    (add_label_pairs add_env_pairs : list KV)
    (add_restart add_network : option string) (include_cmd : bool) :
  Forall Ref.shaped
    (format_command_args container add_label_pairs add_env_pairs add_restart
       add_network include_cmd).
Proof.
  unfold format_command_args.
  repeat match goal with
         | |- Forall _ (_ ++ _)%list => apply Forall_app; split
         end.
  - repeat constructor. exact (shaped_flag "--name" _ eq_refl).
  - unfold network_args. destruct (_ && _); [|destruct (Py.truthy add_network)];
      repeat constructor; exact (shaped_flag "--network" _ eq_refl).
  - unfold restart_args. destruct (Py.truthy _); repeat constructor.
    exact (shaped_flag "--restart" _ eq_refl).
  - apply collect_ports_shaped.
  - apply shaped_somes. intros m text. apply mount_arg_shaped.
  - apply shaped_somes. intros d text. apply device_arg_shaped.
  - apply shaped_map. intros cap. exact (shaped_flag "--cap-add" _ eq_refl).
  - apply shaped_map. intros kv. exact (shaped_flag "--sysctl" _ eq_refl).
  - apply shaped_map. intros env. exact (shaped_flag "-e" _ eq_refl).
  - apply shaped_map. intros kv. exact (shaped_flag "--label" _ eq_refl).
  - repeat constructor. now exists (Ref.Bare (image_of container)).
  - apply shaped_map. intros part. now exists (Ref.Bare part).
Qed.

Lemma words_docker_run (l : list Ref.Arg) (fin : string) :
  (forall w, Posix.words Posix.Plain (Some w) fin = Some [w]) ->
  forallb Ref.known_arg l = true ->
  Posix.words Posix.Plain None
    (("docker run" ++ Ref.continued (map Ref.arg_text l)) ++ fin)
  = Some ("docker" :: "run" :: flat_map Ref.arg_words l).
Proof.
  intros Hfin Hk. rewrite append_assoc.
  change (Posix.words Posix.Plain None
            ("docker run" ++ Ref.continued (map Ref.arg_text l) ++ fin))
    with (Posix.close (Some "docker")
            (Posix.words Posix.Plain (Some "run")
               (Ref.continued (map Ref.arg_text l) ++ fin))).
  now rewrite words_continued.
Qed.

Lemma newline_only (c : ascii) :
  Posix.classify c = Posix.Newline -> c = "010"%char.
Proof. each_char c. Qed.

(** A comment runs to the end of its line. *)
Lemma words_comment (s rest : string) :
  Ref.one_line s = true ->
  Posix.words Posix.Comment None (s ++ String "010" rest)
  = Posix.words Posix.Plain None rest.
Proof.
  induction s as [|c s IH]; intros H; [reflexivity|].
  cbn [Ref.one_line] in H. apply andb_true_iff in H as [Hc Hs].
  apply negb_true_iff, Ascii.eqb_neq in Hc.
  cbn [append Posix.words]. destruct (Posix.classify c) eqn:E; try (now apply IH).
  apply newline_only in E. congruence.
Qed.

Lemma command_args_known (container : Container)
    (add_label_pairs add_env_pairs : list KV)
    (add_restart add_network : option string) (include_cmd : bool) :
  exists l,
    format_command_args container add_label_pairs add_env_pairs add_restart
      add_network include_cmd
    = map Ref.arg_text (Ref.Flag "--name" (c_name container) :: l)
    /\ forallb Ref.known_arg l = true.
Proof.
  pose proof (format_command_args_shaped container add_label_pairs add_env_pairs
                add_restart add_network include_cmd) as H.
  unfold format_command_args in *. cbn [app] in *.
  inversion H as [|? ? _ Hrest]; subst.
  destruct (shaped_list _ Hrest) as (l & El & Hl).
  exists l. cbn [map Ref.arg_text]. now rewrite El.
Qed.

(** X9.  The rendered command, read by the shell, is [docker run] followed
    by the arguments word by word: each argument is a flag the tool writes
    with its value, or a bare value, the first is [--name] with the
    container's name, and every value comes back as it was before quoting;
    the line continuations neither join nor split arguments. *)
Theorem rendered_command_words (container : Container)
    (add_label_pairs add_env_pairs : list KV)
    (add_restart add_network : option string) (include_cmd : bool) :
  exists l : list Ref.Arg,
    format_command_args container add_label_pairs add_env_pairs add_restart
      add_network include_cmd
    = map Ref.arg_text (Ref.Flag "--name" (c_name container) :: l)
    /\ forallb Ref.known_arg l = true
    /\ Posix.tokens
         (format_command container add_label_pairs add_env_pairs add_restart
            add_network include_cmd)
       = Some ("docker" :: "run" :: "--name" :: c_name container
               :: flat_map Ref.arg_words l).
Proof.
  destruct (command_args_known container add_label_pairs add_env_pairs
              add_restart add_network include_cmd) as (l & El & Hl).
  exists l. split; [exact El|]. split; [exact Hl|].
  unfold Posix.tokens, format_command. rewrite join_continued, El.
  rewrite <- (append_nil_r (_ ++ _)).
  now rewrite words_docker_run.
Qed.

(** X10.  When the container's name holds no newline, the block written
    for it reads, to the shell, as the command alone: the comment line with
    the name adds no word. *)
Theorem rendered_block_words (container : Container)
    (add_label_pairs add_env_pairs : list KV)
    (add_restart add_network : option string) (include_cmd : bool) :
  Ref.one_line (c_name container) = true ->
  Posix.tokens
    (render_container_block container add_label_pairs add_env_pairs
       add_restart add_network include_cmd)
  = Posix.tokens
      (format_command container add_label_pairs add_env_pairs add_restart
         add_network include_cmd).
Proof.
  intros Hname.
  destruct (command_args_known container add_label_pairs add_env_pairs
              add_restart add_network include_cmd) as (l & El & Hl).
  unfold Posix.tokens, render_container_block, format_command.
  rewrite join_continued, El.
  change (Posix.words Posix.Plain None
            ("# Container: " ++ c_name container ++ String "010" ?r))
    with (Posix.words Posix.Comment None
            (" Container: " ++ c_name container ++ String "010" r)).
  rewrite <- append_assoc, words_comment.
  - rewrite (words_docker_run _ (String "010" EmptyString)); [|reflexivity|].
    + rewrite <- (append_nil_r (_ ++ _)).
      rewrite (words_docker_run _ EmptyString); [reflexivity|reflexivity|].
      cbn [forallb Ref.known_arg]. exact Hl.
    + cbn [forallb Ref.known_arg]. exact Hl.
  - cbn. exact Hname.
Qed.

Lemma rendered_block_words_witness :
  Posix.tokens
    (render_container_block Ref.web [("app2", "{{name}}")] []
       (Some "unless-stopped") None false)
  = Posix.tokens
      (format_command Ref.web [("app2", "{{name}}")] []
         (Some "unless-stopped") None false).
Proof. apply rendered_block_words. reflexivity. Defined.

(** ** Capabilities *)

Lemma default_cap_norm (cap : string) :
  Py.str_in (Py.upper cap) DEFAULT_LINUX_CAPS = true ->
  norm_cap cap = Py.upper cap.
Proof.
  intros H. unfold norm_cap. apply existsb_exists in H as (d & Hin & Heq).
  apply String.eqb_eq in Heq. rewrite Heq.
  repeat (destruct Hin as [<-|Hin]; [reflexivity|]). destruct Hin.
Qed.

Lemma prefixed_cap_norm (c1 c2 c3 : ascii) (cap : string) :
  Py.upper_char c1 = "C"%char -> Py.upper_char c2 = "A"%char ->
  Py.upper_char c3 = "P"%char ->
  norm_cap (String c1 (String c2 (String c3 (String "_" cap)))) = Py.upper cap.
Proof.
  intros H1 H2 H3. unfold norm_cap. cbn [Py.upper]. rewrite H1, H2, H3.
  change (Py.upper_char "_") with "_"%char.
  change (String "C" (String "A" (String "P" (String "_" (Py.upper cap)))))
    with ("CAP_" ++ Py.upper cap).
  unfold Py.startswith. rewrite prefix_app.
  exact (drop_app "CAP_" (Py.upper cap)).
Qed.

Lemma collect_capabilities_app (host_cfg : HostConfig) (l1 l2 : list string) :
  collect_capabilities (Ref.with_caps host_cfg (l1 ++ l2))
  = (collect_capabilities (Ref.with_caps host_cfg l1)
     ++ collect_capabilities (Ref.with_caps host_cfg l2))%list.
Proof.
  unfold collect_capabilities, Ref.with_caps. cbn [hc_CapAdd].
  now rewrite filter_app, map_app.
Qed.

(** X11.  A default Linux capability written in ASCII is left out however
    it is written: in any letter case and with or without the prefix [CAP_]
    in either case; the other capabilities around it are not affected, and
    an ASCII capability that is not a default one is emitted as it was
    written. *)
Theorem collect_capabilities_defaults (host_cfg : HostConfig) (cap : string)
    (before after : list string) :
  Py.isascii cap = true ->
  Py.str_in (Py.upper cap) DEFAULT_LINUX_CAPS = true ->
  collect_capabilities
    (Ref.with_caps host_cfg (before ++ [cap; "CAP_" ++ cap; "cap_" ++ cap] ++ after))
  = collect_capabilities (Ref.with_caps host_cfg (before ++ after))
  /\ (forall other,
        Py.isascii other = true ->
        Py.str_in (norm_cap other) DEFAULT_LINUX_CAPS = false ->
        collect_capabilities (Ref.with_caps host_cfg (before ++ [other] ++ after))
        = (collect_capabilities (Ref.with_caps host_cfg before)
           ++ [("--cap-add " ++ Shlex.quote other)%string]
           ++ collect_capabilities (Ref.with_caps host_cfg after))%list).
Proof.
  intros _ Hd. split.
  - rewrite !collect_capabilities_app. f_equal.
    assert (E : collect_capabilities
                  (Ref.with_caps host_cfg [cap; "CAP_" ++ cap; "cap_" ++ cap]) = []).
    { unfold collect_capabilities, Ref.with_caps. cbn [hc_CapAdd filter].
      rewrite (default_cap_norm cap Hd), Hd.
      change ("CAP_" ++ cap) with (String "C" (String "A" (String "P" (String "_" cap)))).
      change ("cap_" ++ cap) with (String "c" (String "a" (String "p" (String "_" cap)))).
      rewrite !prefixed_cap_norm by reflexivity. rewrite Hd. reflexivity. }
    now rewrite E.
  - intros other _ Ho. rewrite !collect_capabilities_app. do 2 f_equal.
    unfold collect_capabilities, Ref.with_caps. cbn [hc_CapAdd filter].
    now rewrite Ho.
Qed.

Lemma collect_capabilities_defaults_witness :
  collect_capabilities
    (Ref.with_caps (c_HostConfig Ref.web)
       (["SYS_ADMIN"] ++ ["chown"; "CAP_chown"; "cap_chown"] ++ ["NET_ADMIN"]))
  = collect_capabilities
      (Ref.with_caps (c_HostConfig Ref.web) (["SYS_ADMIN"] ++ ["NET_ADMIN"])).
Proof.
  destruct (collect_capabilities_defaults (c_HostConfig Ref.web) "chown"
              ["SYS_ADMIN"] ["NET_ADMIN"] eq_refl eq_refl) as [H _].
  exact H.
Defined.

(** ** Selecting containers *)

Lemma lower_upper_char (c : ascii) :
  Py.lower_char (Py.upper_char c) = Py.lower_char c.
Proof. each_char c. Qed.

Lemma lower_upper (s : string) : Py.lower (Py.upper s) = Py.lower s.
Proof.
  induction s as [|c s IH]; [reflexivity|].
  cbn. now rewrite lower_upper_char, IH.
Qed.

Lemma contains_nil (s : string) : Py.contains EmptyString s = true.
Proof. destruct s; reflexivity. Qed.

Lemma existsb_lowered (patterns : list string) (name : string) :
  existsb (fun pat => Py.contains pat name) (map Py.lower patterns)
  = existsb (fun pat => Py.contains (Py.lower pat) name) patterns.
Proof.
  induction patterns as [|p ps IH]; [reflexivity|]. cbn. now rewrite IH.
Qed.

Lemma select_containers_filter (containers : list Container) (patterns : list string) :
  select_containers containers patterns
  = match patterns with
    | [] => containers
    | _ :: _ => filter (Ref.matches patterns) containers
    end.
Proof.
  destruct patterns as [|p ps]; [reflexivity|].
  unfold select_containers, Ref.matches. apply filter_ext.
  intros c. apply existsb_lowered.
Qed.

(** X12.  For ASCII patterns and container names, [select_containers]
    keeps, in their order, the containers whose name holds some pattern as a
    substring, letter case apart, and all of them when there is no pattern.
    Selecting again selects the same,
    writing the patterns in upper case selects the same, and an empty
    pattern selects every container. *)
Theorem select_containers_matching (containers : list Container)
    (patterns : list string) :
  forallb Py.isascii patterns = true ->
  forallb (fun c => Py.isascii (c_name c)) containers = true ->
  (forall c, In c (select_containers containers patterns)
             <-> In c containers /\ (patterns = [] \/ Ref.matches patterns c = true))
  /\ select_containers (select_containers containers patterns) patterns
     = select_containers containers patterns
  /\ select_containers containers (map Py.upper patterns)
     = select_containers containers patterns
  /\ (In EmptyString patterns -> select_containers containers patterns = containers).
Proof.
  intros _ _.
  rewrite !select_containers_filter. split; [|split; [|split]].
  - intros c. destruct patterns as [|p ps].
    + split; [intros H; split; [exact H | now left] | now intros [H _]].
    + rewrite filter_In. split; intros [H1 H2]; split; auto.
      destruct H2 as [H2|H2]; [discriminate | exact H2].
  - destruct patterns as [|p ps]; [reflexivity|]. apply filter_idempotent.
  - destruct patterns as [|p ps]; [reflexivity|]. cbn [map].
    apply filter_ext. intros c. unfold Ref.matches. cbn [existsb].
    rewrite lower_upper. f_equal.
    induction ps as [|q qs IH]; [reflexivity|]. cbn. now rewrite lower_upper, IH.
  - intros Hin. destruct patterns as [|p ps]; [reflexivity|].
    rewrite <- (filter_ext (fun _ => true)).
    + induction containers as [|c cs IH]; [reflexivity|]. cbn. now rewrite IH.
    + intros c. symmetry. unfold Ref.matches. apply existsb_exists.
      exists EmptyString. split; [exact Hin | apply contains_nil].
Qed.

Lemma select_containers_matching_witness :
  select_containers [Ref.web; Ref.empty_entrypoint] ["zzz"; EmptyString]
  = [Ref.web; Ref.empty_entrypoint].
Proof.
  destruct (select_containers_matching [Ref.web; Ref.empty_entrypoint]
              ["zzz"; EmptyString] eq_refl eq_refl) as (_ & _ & _ & H).
  apply H. right. left. reflexivity.
Defined.

(** ** File names *)

Lemma file_char_not_slash (c : ascii) :
  Ref.file_char c = true -> Ascii.eqb c "/" = false.
Proof. each_char c. Qed.

Lemma rstrip_char_cons (ch c : ascii) (s : string) :
  Py.rstrip_char ch (String c s)
  = match Py.rstrip_char ch s with
    | EmptyString => if Ascii.eqb c ch then EmptyString else String c EmptyString
    | r => String c r
    end.
Proof. reflexivity. Qed.

Lemma strip_char_file_chars (s : string) :
  Ref.all_chars Ref.file_char s = true -> Py.strip_char "/" s = s.
Proof.
  intros H. unfold Py.strip_char.
  assert (Hl : Py.lstrip_char "/" s = s).
  { destruct s as [|c s]; [reflexivity|]. cbn in *.
    apply andb_true_iff in H as [Hc _]. now rewrite (file_char_not_slash c Hc). }
  rewrite Hl. induction s as [|c s IH]; [reflexivity|].
  cbn [Ref.all_chars] in H. apply andb_true_iff in H as [Hc Hs].
  rewrite rstrip_char_cons, IH.
  - destruct s; [now rewrite (file_char_not_slash c Hc) | reflexivity].
  - exact Hs.
  - destruct s as [|d s]; [reflexivity|]. cbn in *.
    apply andb_true_iff in Hs as [Hd _]. now rewrite (file_char_not_slash d Hd).
Qed.

Lemma map_chars_file_chars (s : string) :
  Ref.all_chars Ref.file_char
    (Py.map_chars (fun ch => if Ref.file_char ch then ch else "_"%char) s) = true.
Proof.
  induction s as [|c s IH]; [reflexivity|].
  cbn [Py.map_chars Ref.all_chars]. rewrite IH, andb_true_r.
  destruct (Ref.file_char c) eqn:Hc; [exact Hc | reflexivity].
Qed.

Lemma map_chars_fixed (s : string) :
  Ref.all_chars Ref.file_char s = true ->
  Py.map_chars (fun ch => if Ref.file_char ch then ch else "_"%char) s = s.
Proof.
  induction s as [|c s IH]; [reflexivity|]. cbn [Ref.all_chars Py.map_chars].
  intros H. apply andb_true_iff in H as [Hc Hs]. now rewrite Hc, IH.
Qed.

Lemma sanitize_filename_unfold (name : string) :
  sanitize_filename name
  = Py.map_chars (fun ch => if Ref.file_char ch then ch else "_"%char)
      (match Py.strip_char "/" name with
       | EmptyString => "container"
       | t => t
       end).
Proof. reflexivity. Qed.

Lemma sanitize_filename_fixed (name : string) :
  name <> EmptyString -> Ref.all_chars Ref.file_char name = true ->
  sanitize_filename name = name.
Proof.
  intros Hne Hs. rewrite sanitize_filename_unfold, strip_char_file_chars by exact Hs.
  destruct name as [|c s]; [congruence|]. now apply map_chars_fixed.
Qed.

Lemma sanitize_filename_chars (name : string) :
  sanitize_filename name <> EmptyString
  /\ Ref.all_chars Ref.file_char (sanitize_filename name) = true.
Proof.
  rewrite sanitize_filename_unfold. split; [|apply map_chars_file_chars].
  destruct (Py.strip_char "/" name); discriminate.
Qed.

Lemma file_chars_no_slash (s : string) :
  Ref.all_chars Ref.file_char s = true -> Py.contains "/" s = false.
Proof.
  induction s as [|c s IH]; [reflexivity|]. intros Hs.
  cbn [Ref.all_chars] in Hs. apply andb_true_iff in Hs as [Hc Hs].
  cbn [Py.contains]. rewrite prefix_cons, prefix_nil, Ascii.eqb_sym.
  rewrite (file_char_not_slash c Hc). now apply IH.
Qed.

(** X13.  For an ASCII name, the file name [sanitize_filename] returns is
    never empty and holds only letters, digits, [-], [_] and [.], so no
    slash; a non-empty name made of such characters is returned as it is,
    and sanitizing a second time changes nothing. *)
Theorem sanitize_filename_safe (name : string) :
  Py.isascii name = true ->
  sanitize_filename name <> EmptyString
  /\ Ref.all_chars Ref.file_char (sanitize_filename name) = true
  /\ Py.contains "/" (sanitize_filename name) = false
  /\ sanitize_filename (sanitize_filename name) = sanitize_filename name
  /\ (name <> EmptyString -> Ref.all_chars Ref.file_char name = true ->
      sanitize_filename name = name).
Proof.
  intros _. destruct (sanitize_filename_chars name) as [Hne Hs].
  split; [exact Hne|]. split; [exact Hs|]. split; [|split].
  - now apply file_chars_no_slash.
  - now apply sanitize_filename_fixed.
  - apply sanitize_filename_fixed.
Qed.

Lemma sanitize_filename_safe_witness :
  sanitize_filename "/my app/v1.2" = "my_app_v1.2"
  /\ sanitize_filename (sanitize_filename "//") = "container"
  /\ sanitize_filename "web-1_a.b" = "web-1_a.b".
Proof.
  destruct (sanitize_filename_safe "web-1_a.b" eq_refl) as (_ & _ & _ & _ & H).
  split; [reflexivity|]. split; [reflexivity|].
  apply H; [discriminate | reflexivity].
Defined.

(** ** Files and prompts *)

Lemma file_at_put_same (path : string) (f : File) (files : list (string * File)) :
  file_at path (put_file path f files) = Some f.
Proof.
  induction files as [|[p g] files IH]; cbn.
  - now rewrite String.eqb_refl.
  - destruct (String.eqb p path) eqn:E; cbn.
    + now rewrite String.eqb_refl.
    + now rewrite E.
Qed.

Lemma file_at_put_other (path q : string) (f : File) (files : list (string * File)) :
  path <> q -> file_at q (put_file path f files) = file_at q files.
Proof.
  intros Hne. induction files as [|[p g] files IH]; cbn.
  - apply String.eqb_neq in Hne. now rewrite Hne.
  - destruct (String.eqb_spec p path) as [->|Hp]; cbn.
    + apply String.eqb_neq in Hne. now rewrite Hne.
    + now rewrite IH.
Qed.

Lemma prompt_loop_effects (overwrite_all : bool) (files : list (string * File))
    (stdin : list string) :
  match prompt_loop overwrite_all files stdin with
  | Done r w' =>
      w_files w' = files
      /\ (exists k, w_stdin w' = skipn (S k) stdin)
      /\ (snd r = true -> overwrite_all = true \/ fst r = true)
  | EOFError w' => w' = mkWorld files []
  end.
Proof.
  induction stdin as [|line rest IH]; [reflexivity|].
  cbn [prompt_loop].
  destruct (Py.str_in (Py.lower (Py.strip line)) ["y"; "yes"]).
  { cbn. split; [reflexivity|]. split; [now exists 0 | auto]. }
  destruct (Py.str_in (Py.lower (Py.strip line)) ["a"; "all"]).
  { cbn. split; [reflexivity|]. split; [now exists 0 | auto]. }
  destruct (Py.str_in (Py.lower (Py.strip line)) [EmptyString; "n"; "no"]).
  { cbn. split; [reflexivity|]. split; [now exists 0 | auto]. }
  destruct (prompt_loop overwrite_all files rest) as [r w'|w']; [|exact IH].
  destruct IH as (Hf & [k Hk] & Hr). split; [exact Hf|]. split; [|exact Hr].
  exists (S k). exact Hk.
Qed.

(** X14.  [should_overwrite] asks nothing when the file is missing or when
    "all" was answered before, and then says to write; it never touches a
    file; it reads the lines typed until one is an answer, and only then
    does it fail for want of input; the overwrite-all flag it returns is set
    only if it was set or the file is to be written, and is never reset. *)
Theorem should_overwrite_effects (path : string) (overwrite_all : bool) (w : World) :
  (path_exists path w = false \/ overwrite_all = true ->
   should_overwrite path overwrite_all w = Done (true, overwrite_all) w)
  /\ match should_overwrite path overwrite_all w with
     | Done r w' =>
         w_files w' = w_files w
         /\ (exists k, w_stdin w' = skipn k (w_stdin w))
         /\ (overwrite_all = true -> snd r = true)
         /\ (snd r = true -> fst r = true)
     | EOFError w' =>
         w' = mkWorld (w_files w) []
         /\ path_exists path w = true /\ overwrite_all = false
     end.
Proof.
  unfold should_overwrite. split.
  - intros [H| ->]; [now rewrite H|].
    now destruct (path_exists path w).
  - destruct (path_exists path w) eqn:He; cbn [negb].
    + destruct overwrite_all.
      * split; [reflexivity|]. split; [now exists 0 | auto].
      * pose proof (prompt_loop_effects false (w_files w) (w_stdin w)) as H.
        destruct (prompt_loop false (w_files w) (w_stdin w)) as [r w'|w'].
        -- destruct H as (Hf & [k Hk] & Hr). split; [exact Hf|].
           split; [now exists (S k)|]. split; [discriminate|].
           intros Hs. destruct (Hr Hs) as [H|H]; [discriminate | exact H].
        -- auto.
    + split; [reflexivity|]. split; [now exists 0|]. split; [auto|].
      intros _. reflexivity.
Qed.

Lemma should_overwrite_effects_witness :
  should_overwrite "a.sh" true (mkWorld [("a.sh", mkFile "x" 420)] [])
  = Done (true, true) (mkWorld [("a.sh", mkFile "x" 420)] []).
Proof.
  destruct (should_overwrite_effects "a.sh" true
              (mkWorld [("a.sh", mkFile "x" 420)] [])) as [H _].
  apply H. right. reflexivity.
Defined.














(** ** The run as a whole *)

Lemma parse_kv_args_find (raw_items : list string) (kind : string) :
  parse_kv_args raw_items kind
  = match find Ref.malformed raw_items with
    | None => Returned (map Ref.kv_of raw_items)
    | Some raw => Raised (ValueError (Ref.kv_error kind raw))
    end.
Proof. unfold parse_kv_args. now rewrite parse_kv_loop_find. Qed.

Lemma find_app_none {A : Type} (p : A -> bool) (l1 l2 : list A) :
  find p (l1 ++ l2) = None <-> find p l1 = None /\ find p l2 = None.
Proof.
  induction l1 as [|x l1 IH]; cbn.
  - split; [auto | now intros [_ H]].
  - destruct (p x); [|exact IH]. split; [discriminate | now intros [H _]].
Qed.

(** X17.  With ASCII name patterns and container names, [main] ends with
    status 2, having written nothing and asked nothing, exactly when some
    [--add-label] or [--add-env] item is malformed (it has no ["="], or its
    key is empty once the whitespace around it is stripped); with
    well-formed items and no container selected it ends with
    status 0, again without writing or asking; and it never ends with
    another status than 0 or 2. *)
Theorem main_from_status (args : Args) (running : list Container) (w : World) :
  forallb Py.isascii (a_patterns args) = true ->
  forallb (fun c => Py.isascii (c_name c)) running = true ->
  (main_from args running w = Done 2%Z w
   <-> exists raw, In raw (a_add_labels args ++ a_add_envs args)
                   /\ Ref.malformed raw = true)
  /\ ((forall raw, In raw (a_add_labels args ++ a_add_envs args) ->
                   Ref.malformed raw = false) ->
      select_containers running (a_patterns args) = [] ->
      main_from args running w = Done 0%Z w)
  /\ (forall code w', main_from args running w = Done code w' ->
                      code = 0%Z \/ code = 2%Z).
Proof.
  intros _ _.
  unfold main_from, parse_label_args, parse_env_args.
  rewrite !parse_kv_args_find.
  destruct (find Ref.malformed (a_add_labels args ++ a_add_envs args)) as [bad|] eqn:Hfind.
  - apply find_some in Hfind as [Hin Hbad].
    assert (E : match find Ref.malformed (a_add_labels args) with
                | Some _ => True
                | None => match find Ref.malformed (a_add_envs args) with
                          | Some _ => True | None => False end
                end).
    { destruct (find Ref.malformed (a_add_labels args)) eqn:E1; [exact I|].
      destruct (find Ref.malformed (a_add_envs args)) eqn:E2; [exact I|].
      apply in_app_iff in Hin as [Hin|Hin];
        [rewrite (find_none _ _ E1 bad Hin) in Hbad
        | rewrite (find_none _ _ E2 bad Hin) in Hbad]; discriminate. }
    destruct (find Ref.malformed (a_add_labels args));
      [|destruct (find Ref.malformed (a_add_envs args)); [|destruct E]];
      (split; [split; [intros _; now exists bad | reflexivity]|]);
      (split; [intros Hall; rewrite (Hall bad Hin) in Hbad; discriminate|]);
      intros code w' H; injection H as <- _; now right.
  - apply find_app_none in Hfind as [E1 E2]. rewrite E1, E2.
    assert (Hgood : forall raw, In raw (a_add_labels args ++ a_add_envs args) ->
                                Ref.malformed raw = false).
    { intros raw Hin. apply in_app_iff in Hin as [Hin|Hin];
        [exact (find_none _ _ E1 raw Hin) | exact (find_none _ _ E2 raw Hin)]. }
    split; [|split].
    + split.
      * destruct (select_containers running (a_patterns args)); [discriminate|].
        destruct (Py.truthy (a_output args)).
        -- destruct (write_output_combined _ _ w); discriminate.
        -- destruct (write_output_per_container _ _ _ w); discriminate.
      * intros (raw & Hin & Hbad). rewrite (Hgood raw Hin) in Hbad. discriminate.
    + intros _ ->. reflexivity.
    + intros code w'.
      destruct (select_containers running (a_patterns args));
        [intros H; injection H as <- _; now left|].
      destruct (Py.truthy (a_output args)).
      * destruct (write_output_combined _ _ w); [|discriminate].
        intros H; injection H as <- _; now left.
      * destruct (write_output_per_container _ _ _ w); [|discriminate].
        intros H; injection H as <- _; now left.
Qed.

Lemma main_from_status_witness :
  main_from (mkArgs [] ["app=web"] ["=x"] None "out" false None None false)
    [Ref.web] (mkWorld [] [])
  = Done 2%Z (mkWorld [] [])
  /\ main_from (mkArgs ["db"] ["app=web"] [] None "out" false None None false)
       [Ref.web] (mkWorld [] [])
     = Done 0%Z (mkWorld [] []).
Proof.
  destruct (main_from_status
              (mkArgs [] ["app=web"] ["=x"] None "out" false None None false)
              [Ref.web] (mkWorld [] []) eq_refl eq_refl) as (H1 & _).
  destruct (main_from_status
              (mkArgs ["db"] ["app=web"] [] None "out" false None None false)
              [Ref.web] (mkWorld [] []) eq_refl eq_refl) as (_ & H2 & _).
  split.
  - apply H1. exists "=x". split; [right; left; reflexivity | reflexivity].
  - apply H2; [|reflexivity].
    intros raw [<-|[]]. reflexivity.
Defined.

(** ** The combined script *)

Lemma rstrip_keep (c : ascii) (s : string) :
  Py.space_len (String c s) = 0 ->
  Py.rstrip (String c s) = String c (Py.rstrip s).
Proof.
  intros H. rewrite rstrip_unfold. unfold Py.all_space.
  now rewrite (lstrip_fixed _ H).
Qed.

Lemma rstrip_shebang (s : string) :
  Py.rstrip (SHEBANG ++ s) = SHEBANG ++ Py.rstrip s.
Proof.
  unfold SHEBANG. destruct s as [|a [|b s]]; cbn [append];
    repeat (rewrite rstrip_keep by reflexivity); reflexivity.
Qed.

Lemma join_shebang (blocks : list string) :
  exists rest, Py.join NEWLINE (SHEBANG :: EmptyString :: blocks) = SHEBANG ++ rest.
Proof. eexists. reflexivity. Qed.

Lemma script_written_write (path : string) (blocks : list string) (w w1 : World) :
  w_files w1 = w_files w ->
  Ref.script_written path w
    (write_script path
       (Py.rstrip (Py.join NEWLINE (SHEBANG :: EmptyString :: blocks)) ++ NEWLINE)
       w1).
Proof.
  intros Hf. unfold Ref.script_written, write_script. cbn [w_files]. split.
  - destruct (join_shebang blocks) as [rest ->]. rewrite rstrip_shebang.
    exists (Py.rstrip rest). rewrite file_at_put_same, append_assoc.
    split; [reflexivity|]. now rewrite rstrip_shebang, rstrip_idempotent.
  - intros q Hq. rewrite file_at_put_other by congruence. now rewrite Hf.
Qed.

(** The prompt skips the lines that are no answer and stops at the first
    that is one. *)
Lemma prompt_loop_answer (overwrite_all : bool) (files : list (string * File))
    (stdin : list string) :
  match prompt_loop overwrite_all files stdin with
  | Done r w' =>
      exists skipped line rest,
        stdin = (skipped ++ line :: rest)%list
        /\ forallb Ref.no_answer skipped = true
        /\ w' = mkWorld files rest
        /\ ((Ref.is_no line = true /\ fst r = false)
            \/ ((Ref.is_yes line = true \/ Ref.is_all line = true) /\ fst r = true))
  | EOFError w' => forallb Ref.no_answer stdin = true /\ w' = mkWorld files []
  end.
Proof.
  induction stdin as [|line rest IH]; [split; reflexivity|].
  cbn [prompt_loop]. fold (Ref.response line).
  fold (Ref.is_yes line) (Ref.is_all line) (Ref.is_no line).
  destruct (Ref.is_yes line) eqn:Hy.
  { exists [], line, rest. repeat split. right. auto. }
  destruct (Ref.is_all line) eqn:Ha.
  { exists [], line, rest. repeat split. right. auto. }
  destruct (Ref.is_no line) eqn:Hn.
  { exists [], line, rest. repeat split. left. auto. }
  destruct (prompt_loop overwrite_all files rest) as [r w'|w'].
  - destruct IH as (skipped & l & rest' & -> & Hs & Hw & Hr).
    exists (line :: skipped), l, rest'. split; [reflexivity|].
    split; [|split; [exact Hw | exact Hr]].
    cbn [forallb]. unfold Ref.no_answer at 1. now rewrite Hy, Ha, Hn.
  - destruct IH as [Hs Hw]. split; [|exact Hw].
    cbn [forallb]. unfold Ref.no_answer at 1. now rewrite Hy, Ha, Hn.
Qed.

(** X18.  With ASCII lines typed at the prompt, [write_output_combined]
    behaves as follows.  When the file is missing it asks nothing, writes the
    script and returns 1.  When the file exists it skips the lines that are
    no answer and reads the first that is one: on "n", "no" or an empty line
    it returns 0 and changes no file, on "y", "yes", "a" or "all" it writes
    the script and returns 1.  When the input runs out before an answer, no
    file has changed.  The script written has mode 0o755, starts with
    [#!/bin/bash] and ends with one newline after its last character that is
    not whitespace, and no other file changes. *)
Theorem write_output_combined_script (path : string) (blocks : list string)
    (w : World) :
  forallb Py.isascii (w_stdin w) = true ->
  match write_output_combined path blocks w with
  | Done n w' =>
      (path_exists path w = false /\ n = 1%Z /\ w_stdin w' = w_stdin w
       /\ Ref.script_written path w w')
      \/ (path_exists path w = true
          /\ exists skipped line rest,
               w_stdin w = (skipped ++ line :: rest)%list
               /\ forallb Ref.no_answer skipped = true
               /\ w_stdin w' = rest
               /\ ((Ref.is_no line = true /\ n = 0%Z /\ w_files w' = w_files w)
                   \/ ((Ref.is_yes line = true \/ Ref.is_all line = true)
                       /\ n = 1%Z /\ Ref.script_written path w w')))
  | EOFError w' =>
      path_exists path w = true
      /\ forallb Ref.no_answer (w_stdin w) = true
      /\ w' = mkWorld (w_files w) []
  end.
Proof.
  intros _. unfold write_output_combined, should_overwrite.
  destruct (path_exists path w) eqn:He; cbn [negb].
  - pose proof (prompt_loop_answer false (w_files w) (w_stdin w)) as H.
    destruct (prompt_loop false (w_files w) (w_stdin w)) as [[sw oa] w1|w1].
    + destruct H as (skipped & line & rest & Hin & Hs & -> & Hr).
      cbn [fst] in Hr. destruct sw; cbn [negb].
      * right. split; [reflexivity|]. exists skipped, line, rest.
        split; [exact Hin|]. split; [exact Hs|]. split; [reflexivity|].
        right. destruct Hr as [[_ Hr]|[Hr _]]; [discriminate|].
        split; [exact Hr|]. split; [reflexivity|].
        now apply script_written_write.
      * right. split; [reflexivity|]. exists skipped, line, rest.
        split; [exact Hin|]. split; [exact Hs|]. split; [reflexivity|].
        left. destruct Hr as [[Hr _]|[_ Hr]]; [|discriminate]. auto.
    + destruct H as [Hs ->]. auto.
  - left. split; [reflexivity|]. split; [reflexivity|]. split; [reflexivity|].
    now apply script_written_write.
Qed.

Lemma write_output_combined_script_witness :
  exists skipped line rest,
    ["maybe"; " No "; "y"] = (skipped ++ line :: rest)%list
    /\ forallb Ref.no_answer skipped = true
    /\ Ref.is_no line = true.
Proof.
  pose proof (write_output_combined_script "all.sh" ["x"]
                (mkWorld [("all.sh", mkFile "old" 420)] ["maybe"; " No "; "y"])
                eq_refl) as H.
  change (write_output_combined "all.sh" ["x"]
            (mkWorld [("all.sh", mkFile "old" 420)] ["maybe"; " No "; "y"]))
    with (Done 0%Z (mkWorld [("all.sh", mkFile "old" 420)] ["y"])) in H.
  destruct H as [(He & _)|(_ & skipped & line & rest & Hin & Hs & _ & Hr)];
    [discriminate|].
  exists skipped, line, rest. split; [exact Hin|]. split; [exact Hs|].
  destruct Hr as [(Hn & _)|(_ & Hone & _)]; [exact Hn | discriminate].
Defined.

(** ** Additions, end to end *)

Lemma env_arg_in_args (container : Container) (labels envs : list KV)
    (add_restart add_network : option string) (include_cmd : bool) (item : string) :
  In item (merge_envs (filter_env_vars (cfg_Env (c_Config container))) envs
             (c_name container)) ->
  In (env_arg item)
     (format_command_args container labels envs add_restart add_network include_cmd).
Proof.
  intros H. unfold format_command_args.
  do 8 (apply in_or_app; right). apply in_or_app. left. now apply in_map.
Qed.

Lemma label_arg_in_args (container : Container) (labels envs : list KV)
    (add_restart add_network : option string) (include_cmd : bool) (kv : KV) :
  In kv (merge_labels (filter_labels (cfg_Labels (c_Config container))) labels
           (c_name container)) ->
  In (label_arg kv)
     (format_command_args container labels envs add_restart add_network include_cmd).
Proof.
  intros H. unfold format_command_args.
  do 9 (apply in_or_app; right). apply in_or_app. left. now apply in_map.
Qed.

(** X19.  Additions whose keys the container already has (after filtering;
    for a label the key with the placeholder replaced) leave the arguments
    exactly as they are without additions.  An env addition whose key is
    missing shows as [-e KEY=VALUE] and a label addition whose rendered key
    is missing shows as [--label KEY=VALUE], with the placeholder replaced
    by the container's name; a key that filtering removed counts as
    missing. *)
Theorem additions_end_to_end (container : Container)
    (add_label_pairs add_env_pairs : list KV)
    (add_restart add_network : option string) (include_cmd : bool) :
  ((forall kv, In kv add_env_pairs ->
      Dict.mem (fst kv)
        (merge_envs_map (filter_env_vars (cfg_Env (c_Config container))) []
           (c_name container)) = true) ->
   (forall kv, In kv add_label_pairs ->
      Dict.mem (render (c_name container) (fst kv))
        (filter_labels (cfg_Labels (c_Config container))) = true) ->
   format_command_args container add_label_pairs add_env_pairs add_restart
     add_network include_cmd
   = format_command_args container [] [] add_restart add_network include_cmd)
  /\ (forall k v,
        Dict.mem k
          (merge_envs_map (filter_env_vars (cfg_Env (c_Config container))) []
             (c_name container)) = false ->
        In ("-e " ++ Shlex.quote (k ++ "=" ++ render (c_name container) v))
           (format_command_args container add_label_pairs [(k, v)] add_restart
              add_network include_cmd))
  /\ (forall k v,
        Dict.mem (render (c_name container) k)
          (filter_labels (cfg_Labels (c_Config container))) = false ->
        In ("--label " ++ Shlex.quote
              (render (c_name container) k ++ "=" ++ render (c_name container) v))
           (format_command_args container [(k, v)] add_env_pairs add_restart
              add_network include_cmd)).
Proof.
  split; [|split].
  - intros He Hl. unfold format_command_args, merge_envs.
    rewrite (merge_envs_map_add_missing _ add_env_pairs), (merge_labels_add_missing _ add_label_pairs).
    rewrite !add_missing_present; [reflexivity| |].
    + intros kv Hin. apply in_map_iff in Hin as (kv0 & <- & Hin). exact (Hl kv0 Hin).
    + intros kv Hin. apply in_map_iff in Hin as (kv0 & <- & Hin). exact (He kv0 Hin).
  - intros k v Hk.
    apply (env_arg_in_args container add_label_pairs [(k, v)] add_restart
             add_network include_cmd (k ++ "=" ++ render (c_name container) v)).
    unfold merge_envs. rewrite merge_envs_map_add_missing.
    unfold Ref.add_missing. cbn [map fold_left Ref.rendered_value fst snd].
    rewrite dict_setdefault_app, Hk, map_app. apply in_or_app. right. now left.
  - intros k v Hk.
    apply (label_arg_in_args container [(k, v)] add_env_pairs add_restart
             add_network include_cmd
             (render (c_name container) k, render (c_name container) v)).
    unfold merge_labels. cbn [fold_left merge_labels_step]. rewrite Hk.
    rewrite dict_set_absent by exact Hk. apply in_or_app. right. now left.
Qed.

Lemma additions_end_to_end_witness :
  In "-e PATH=/opt/web/bin"
    (format_command_args Ref.web [] [("PATH", "/opt/{{name}}/bin")] None None false)
  /\ format_command_args Ref.web [("app", "other")] [("TZ", "CET")] None None false
     = format_command_args Ref.web [] [] None None false.
Proof.
  destruct (additions_end_to_end Ref.web [] [("PATH", "/opt/{{name}}/bin")]
              None None false) as (_ & H1 & _).
  destruct (additions_end_to_end Ref.web [("app", "other")] [("TZ", "CET")]
              None None false) as (H2 & _).
  split.
  - apply (H1 "PATH" "/opt/{{name}}/bin"). reflexivity.
  - apply H2; intros kv [<-|[]]; reflexivity.
Defined.
